(** * Ride-pool: the ride lifecycle and seat ledger

    A shallow embedding of the request handlers of [routes/rideRoutes.js]
    and [routes/rideAgreements.js] and of the cron job of [api.js], over
    the tables of the SQL schema, followed by the properties of the seat
    ledger, the request negotiation and the lifecycle sweeper.

    Conventions of the embedding.
    - A table with a primary key read and written by key ([rides],
      [ride_requests]) is a finite map from the [id] column to the other
      columns; [bookings], which is only appended to and filtered, is the
      list of its rows in insertion order.
    - A handler is a function of the store that either answers the request
      ([return res.status(..).json(..)]) or goes on; the handlers are
      written in that monad, statement by statement.
    - In [run] and [calls] a handler runs from its first statement to its
      answer before the next one starts. The handlers are [async] and wait
      for the store at every [pool.execute], so several requests can be in
      flight; [InFlight] and [interleave] follow one statement at a time.
    - Of the statements the store can refuse, the two INSERTs whose foreign
      key is chosen by the caller are followed into their [catch] branch
      ([rides.user_id] into [drivers], [ride_requests.ride_id] into [rides]);
      every other [pool.execute] is taken to be carried out: a lost
      connection, a clash of generated ids or a value outside its column are
      outside the embedding.
    - The identifiers made by [uuidv4()] and by the column default [UUID()]
      are arguments of the handlers.
    - The [INT] columns are unbounded integers, and a statement that
      depends on the range of the column has it as a hypothesis, [INT];
      [date] and [time] are
      integers (a day number and a time of day) and [CONCAT(date, ' ', time)
      < NOW()] is the lexicographic order on such pairs. *)

From stdpp Require Import base numbers strings list gmap fin_maps.

Local Open Scope Z_scope.

(** ** Schema *)

Module Ride.

(** [status ENUM('open', 'full', 'completed', 'canceled') DEFAULT 'open'] *)
Inductive status_t : Set := open | full | completed | canceled.

#[global] Instance ride_status_eq_dec : EqDecision status_t.
Proof. solve_decision. Defined.

(** The text of a status, as a template literal prints it. *)
Definition status_text (s : status_t) : string :=
  match s with
  | open => "open"
  | full => "full"
  | completed => "completed"
  | canceled => "canceled"
  end.

(** A row of [rides] without its [id], which is the key of the table. *)
Record t : Set := mk {
  user_id : string;
  origin : string;
  destination : string;
  date : Z;
  time : Z;
  seats_available : Z;
  status : status_t
}.

Definition set_seats_available (n : Z) (r : t) : t :=
  mk (user_id r) (origin r) (destination r) (date r) (time r) n (status r).

Definition set_status (s : status_t) (r : t) : t :=
  mk (user_id r) (origin r) (destination r) (date r) (time r)
     (seats_available r) s.

End Ride.

Module Booking.

(** [status ENUM('pending', 'confirmed', 'cancelled') DEFAULT 'pending'] *)
Inductive status_t : Set := pending | confirmed | cancelled.

#[global] Instance booking_status_eq_dec : EqDecision status_t.
Proof. solve_decision. Defined.

Record t : Set := mk {
  id : string;
  user_id : string;
  ride_id : string;
  seats : Z;
  status : status_t
}.

End Booking.

Module RideRequest.

(** [status ENUM('pending', 'accepted', 'rejected') DEFAULT 'pending'] *)
Inductive status_t : Set := pending | accepted | rejected.

#[global] Instance request_status_eq_dec : EqDecision status_t.
Proof. solve_decision. Defined.

(** A row of [ride_requests] without its [id]. *)
Record t : Set := mk {
  ride_id : string;
  passenger_id : string;
  driver_id : string;
  vehicle_id : string;
  status : status_t
}.

Definition set_status (s : status_t) (r : t) : t :=
  mk (ride_id r) (passenger_id r) (driver_id r) (vehicle_id r) s.

End RideRequest.

Record Store : Type := mkStore {
  rides : gmap string Ride.t;
  bookings : list Booking.t;
  ride_requests : gmap string RideRequest.t
}.

Definition empty_store : Store := mkStore ∅ [] ∅.

(** ** Responses *)

Inductive Json : Set :=
| message (text : string)
| error (text : string).

(** [res.status(code).json(body)]. *)
Record Response : Set := mkResponse { code : Z; body : Json }.

(** ** The handler monad *)

(** [inl r]: the handler has answered [r]; [inr a]: it goes on with [a]. *)
Definition Handler (A : Type) : Type := Store → Store * (Response + A).

#[global] Instance Handler_ret : MRet Handler := λ A a s, (s, inr a).

#[global] Instance Handler_bind : MBind Handler := λ A B k m s,
  match m s with
  | (s', inl r) => (s', inl r)
  | (s', inr a) => k a s'
  end.

Definition respond {A} (c : Z) (b : Json) : Handler A :=
  λ s, (s, inl (mkResponse c b)).

(** The store and the answer a handler leaves behind. *)
Definition run (h : Handler Response) (s : Store) : Store * Response :=
  match h s with
  | (s', inl r) => (s', r)
  | (s', inr r) => (s', r)
  end.

(** JavaScript truthiness of the values a request carries. *)
Class Truthy (A : Type) := truthy : A → bool.
#[global] Instance string_truthy : Truthy string := λ s, bool_decide (s ≠ "").
#[global] Instance number_truthy : Truthy Z := λ n, bool_decide (n ≠ 0).

Notation "! x" := (negb (truthy x)) (at level 35, right associativity).

(** [Array.prototype.includes]. *)
Definition includes `{EqDecision A} (l : list A) (x : A) : bool :=
  bool_decide (x ∈ l).

(** ** Statements of the store *)

(** [SELECT seats_available, status FROM rides WHERE id = ?] *)
Definition select_ride (rideId : string) : Handler (list Ride.t) :=
  λ s, (s, inr (option_list (rides s !! rideId))).

(** [SELECT * FROM rides WHERE id = ? AND user_id = ?] *)
Definition select_ride_of (rideId userId : string) : Handler (list Ride.t) :=
  λ s, (s, inr (filter (λ r, Ride.user_id r = userId)
                       (option_list (rides s !! rideId)))).

(** [user_id = ? AND ride_id = ? AND status = 'confirmed'] *)
Definition confirmed_booking (userId rideId : string) (b : Booking.t) : Prop :=
  Booking.user_id b = userId ∧ Booking.ride_id b = rideId
  ∧ Booking.status b = Booking.confirmed.

#[global] Instance confirmed_booking_dec userId rideId b :
  Decision (confirmed_booking userId rideId b).
Proof. unfold confirmed_booking. apply _. Defined.

(** [SELECT * FROM bookings WHERE user_id = ? AND ride_id = ?
     AND status = 'confirmed'] *)
Definition select_confirmed_bookings (userId rideId : string)
  : Handler (list Booking.t) :=
  λ s, (s, inr (filter (confirmed_booking userId rideId) (bookings s))).

(** [INSERT INTO bookings (id, user_id, ride_id, seats, status)
     VALUES (?, ?, ?, ?, 'pending')] *)
Definition insert_booking (id userId rideId : string) (seats : Z)
  : Handler unit :=
  λ s, (mkStore
          (rides s)
          (bookings s ++ [Booking.mk id userId rideId seats Booking.pending])
          (ride_requests s),
        inr ()).

Definition update_rides (f : gmap string Ride.t → gmap string Ride.t)
  : Handler unit :=
  λ s, (mkStore (f (rides s)) (bookings s) (ride_requests s), inr ()).

(** [UPDATE rides SET seats_available = seats_available - ? WHERE id = ?] *)
Definition update_seats_available (seats : Z) (rideId : string)
  : Handler unit :=
  update_rides
    (alter (λ r, Ride.set_seats_available (Ride.seats_available r - seats) r)
           rideId).

(** [UPDATE rides SET status = ? WHERE id = ?] *)
Definition update_status (st : Ride.status_t) (rideId : string)
  : Handler unit :=
  update_rides (alter (Ride.set_status st) rideId).

(** What [err.message] says when the store refuses an INSERT whose foreign
    key names no row of the parent table. *)
Definition no_referenced_row : string :=
  "Cannot add or update a child row: a foreign key constraint fails".

(** [INSERT INTO rides (user_id, origin, destination, date, time,
     seats_available) VALUES (?, ?, ?, ?, ?, ?)]: [id] takes its default
    [UUID()], [status] its default ['open']. The table has [FOREIGN KEY
    (user_id) REFERENCES drivers(user_id)]: given the [user_id]s of
    [drivers], the store carries the statement out, [inr], or raises the
    error whose message is [inl]. *)
Definition insert_ride (drivers : gset string) (id : string) (r : Ride.t)
  : Handler (string + unit) :=
  λ s, if decide (Ride.user_id r ∈ drivers)
       then (mkStore (<[id := r]> (rides s)) (bookings s) (ride_requests s),
             inr (inr ()))
       else (s, inr (inl no_referenced_row)).

(** ** routes/rideRoutes.js *)

(** [POST /offerride/:user], on a store whose table [drivers] has the
    [user_id]s [drivers]. *)
Definition offerride (drivers : gset string)
    (user origin destination : string)
    (date time seats_available : Z) (uuid : string) : Handler Response :=
  inserted ← insert_ride drivers uuid
    (Ride.mk user origin destination date time seats_available Ride.open);
  match inserted with
  | inr _ => respond 200 (message "Ride offered successfully")
  | inl err_message => (* catch (err) *) respond 500 (error err_message)
  end.

(** [POST /book-ride] *)
Definition book_ride (rideId userId : string) (seats : Z) (uuid : string)
  : Handler Response :=
  if !rideId || !seats then
    respond 400 (error "Ride ID and number of seats are required.")
  else
    ride ← select_ride rideId;
    match ride with
    | [] => respond 404 (error "Ride not found.")
    | rideDetails :: _ =>
      if includes [Ride.completed; Ride.canceled] (Ride.status rideDetails) then
        respond 400
          (error ("This ride has been "
                  +:+ Ride.status_text (Ride.status rideDetails) +:+ "."))
      else if Ride.seats_available rideDetails <? seats then
        respond 400 (error "Not enough seats available.")
      else
        existingBooking ← select_confirmed_bookings userId rideId;
        if (0 <? length existingBooking)%nat then
          respond 400
            (error "You already have a confirmed booking for this ride.")
        else
          insert_booking uuid userId rideId seats;;
          update_seats_available seats rideId;;
          updatedRide ← select_ride rideId;
          match updatedRide with
          | [] =>
            (* [updatedRide[0].seats_available] raises, caught below *)
            respond 500 (error "Internal Server Error")
          | updated :: _ =>
            (if Ride.seats_available updated =? 0
             then update_status Ride.full rideId
             else mret ());;
            respond 201
              (message "✅ Ride booked successfully. Waiting for confirmation.")
          end
    end.

(** [POST /cancel-ride] *)
Definition cancel_ride (rideId userId : string) : Handler Response :=
  ride ← select_ride_of rideId userId;
  if (length ride =? 0)%nat then
    respond 403 (error "Ride not found or not yours to cancel")
  else
    update_status Ride.canceled rideId;;
    respond 200 (message "🚫 Ride canceled successfully").

(** ** routes/rideAgreements.js *)

(** [SELECT id FROM ride_requests WHERE id = ? AND driver_id = ?] *)
Definition select_request_of (request_id driver_id : string)
  : Handler (list RideRequest.t) :=
  λ s, (s, inr (filter (λ r, RideRequest.driver_id r = driver_id)
                       (option_list (ride_requests s !! request_id)))).

Definition update_ride_requests
    (f : gmap string RideRequest.t → gmap string RideRequest.t)
  : Handler unit :=
  λ s, (mkStore (rides s) (bookings s) (f (ride_requests s)), inr ()).

(** [UPDATE ride_requests SET status = ? WHERE id = ?] *)
Definition update_request_status (st : RideRequest.status_t)
    (request_id : string) : Handler unit :=
  update_ride_requests (alter (RideRequest.set_status st) request_id).

(** [INSERT INTO ride_requests (ride_id, passenger_id, driver_id,
     vehicle_id) VALUES (?, ?, ?, ?)]: [id] takes its default [UUID()],
    [status] its default ['pending']. The table has [FOREIGN KEY (ride_id)
    REFERENCES rides(id)]: the store carries the statement out, [inr], or
    raises the error whose message is [inl]. *)
Definition insert_ride_request (id : string) (q : RideRequest.t)
  : Handler (string + unit) :=
  λ s, if decide (is_Some (rides s !! RideRequest.ride_id q))
       then (mkStore (rides s) (bookings s) (<[id := q]> (ride_requests s)),
             inr (inr ()))
       else (s, inr (inl no_referenced_row)).

(** [POST /ride-req/:vehicle] *)
Definition ride_req (vehicle ride_id driver_id passenger_id uuid : string)
  : Handler Response :=
  if !ride_id || !driver_id then
    respond 400 (error "Ride ID and Driver ID are required")
  else
    inserted ← insert_ride_request uuid
      (RideRequest.mk ride_id passenger_id driver_id vehicle
                      RideRequest.pending);
    match inserted with
    | inr _ => respond 201 (message "Ride request sent successfully")
    | inl err_message => (* catch (err) *) respond 500 (error err_message)
    end.

(** [POST /accepted] *)
Definition accepted (request_id driver_id : string) : Handler Response :=
  existingRequest ← select_request_of request_id driver_id;
  if (length existingRequest =? 0)%nat then
    respond 403 (error "Unauthorized action")
  else
    update_request_status RideRequest.accepted request_id;;
    respond 200 (message "Ride request accepted").

(** [POST /rejected] *)
Definition rejected (request_id driver_id : string) : Handler Response :=
  existingRequest ← select_request_of request_id driver_id;
  if (length existingRequest =? 0)%nat then
    respond 403 (error "Unauthorized action")
  else
    update_request_status RideRequest.rejected request_id;;
    respond 200 (message "Ride request rejected").

(** ** api.js: the cron job *)

(** A date and a time of day; [NOW()] is such a pair. *)
Definition DateTime : Set := (Z * Z)%type.

(** [CONCAT(date, ' ', time) < NOW()] *)
Definition before (a b : DateTime) : bool :=
  (a.1 <? b.1) || ((a.1 =? b.1) && (a.2 <? b.2)).

Definition due (now : DateTime) (r : Ride.t) : bool :=
  before (Ride.date r, Ride.time r) now
  && negb (includes [Ride.completed; Ride.canceled] (Ride.status r)).

(** [UPDATE rides SET status = 'completed'
     WHERE CONCAT(date, ' ', time) < NOW()
     AND status NOT IN ('completed', 'canceled')] *)
Definition mark_completed (now : DateTime) (r : Ride.t) : Ride.t :=
  if due now r then Ride.set_status Ride.completed r else r.

(** One run of [cron.schedule('*/10 * * * *', ...)] at the time [now]. *)
Definition sweeper (now : DateTime) (s : Store) : Store :=
  mkStore (mark_completed now <$> rides s) (bookings s) (ride_requests s).

(** ** Requests in flight *)

(** A request whose handler has started: it is answered, or it waits at an
    [await pool.execute(...)]. The store runs the statement in one piece;
    what the handler does with the rows, up to its answer or its next
    [await], is the request in flight that comes with the store. *)
#[warnings="-register-all"]
Inductive InFlight : Type :=
| answered (r : Response)
| await (statement : Store → Store * InFlight).

(** [const rows = await pool.execute(...)], then [rest rows]. *)
Definition awaiting {A} (statement : Handler A) (rest : A → InFlight)
  : InFlight :=
  await (λ s, match statement s with
              | (s', inr rows) => (s', rest rows)
              | (s', inl r) => (s', answered r)
              end).

(** [POST /book-ride] from its second query on: the caller's confirmed
    bookings, then the three writes. The rows of the ride read before are
    not looked at again. *)
Definition book_ride_writing (rideId userId : string) (seats : Z)
    (uuid : string) : InFlight :=
  awaiting (select_confirmed_bookings userId rideId) (λ existingBooking,
  if (0 <? length existingBooking)%nat then
    answered
      (mkResponse 400
         (error "You already have a confirmed booking for this ride."))
  else
    awaiting (insert_booking uuid userId rideId seats) (λ _,
    awaiting (update_seats_available seats rideId) (λ _,
    awaiting (select_ride rideId) (λ updatedRide,
    match updatedRide with
    | [] => answered (mkResponse 500 (error "Internal Server Error"))
    | updated :: _ =>
      if Ride.seats_available updated =? 0 then
        awaiting (update_status Ride.full rideId) (λ _,
        answered
          (mkResponse 201
             (message
                "✅ Ride booked successfully. Waiting for confirmation.")))
      else
        answered
          (mkResponse 201
             (message
                "✅ Ride booked successfully. Waiting for confirmation."))
    end)))).

(** [POST /book-ride], one statement at a time: the check of the request,
    the query for the ride with the checks of its status and seats, then
    [book_ride_writing]. *)
Definition book_ride_in_flight (rideId userId : string) (seats : Z)
    (uuid : string) : InFlight :=
  if !rideId || !seats then
    answered
      (mkResponse 400 (error "Ride ID and number of seats are required."))
  else
    awaiting (select_ride rideId) (λ ride,
    match ride with
    | [] => answered (mkResponse 404 (error "Ride not found."))
    | rideDetails :: _ =>
      if includes [Ride.completed; Ride.canceled] (Ride.status rideDetails)
      then
        answered
          (mkResponse 400
             (error ("This ride has been "
                     +:+ Ride.status_text (Ride.status rideDetails) +:+ ".")))
      else if Ride.seats_available rideDetails <? seats then
        answered (mkResponse 400 (error "Not enough seats available."))
      else book_ride_writing rideId userId seats uuid
    end).



(** A request that runs alone, from where it is to its answer. *)
Fixpoint finish (p : InFlight) (s : Store) : Store * Response :=
  match p with
  | answered r => (s, r)
  | await statement =>
    match statement s with
    | (s', rest) => finish rest s'
    end
  end.


(** The value fits a column of type [INT]. *)
Definition INT (n : Z) : Prop := -2147483648 ≤ n ≤ 2147483647.

#[global] Instance INT_dec n : Decision (INT n).
Proof. unfold INT. apply _. Defined.

(** ** Sequences of calls *)

Inductive Call : Type :=
| BookRide (rideId userId : string) (seats : Z) (uuid : string)
| CancelRide (rideId userId : string)
| RideReq (vehicle ride_id driver_id passenger_id uuid : string)
| Accepted (request_id driver_id : string)
| Rejected (request_id driver_id : string)
| Sweeper (now : DateTime).

Definition call (c : Call) (s : Store) : Store :=
  match c with
  | BookRide rideId userId seats uuid =>
    (run (book_ride rideId userId seats uuid) s).1
  | CancelRide rideId userId => (run (cancel_ride rideId userId) s).1
  | RideReq v r d p uuid => (run (ride_req v r d p uuid) s).1
  | Accepted request_id driver_id => (run (accepted request_id driver_id) s).1
  | Rejected request_id driver_id => (run (rejected request_id driver_id) s).1
  | Sweeper now => sweeper now s
  end.

Definition calls (cs : list Call) (s : Store) : Store :=
  foldl (λ s c, call c s) s cs.

(** ** Vocabulary of the specification *)

Definition InvalidInput : Response :=
  mkResponse 400 (error "Ride ID and number of seats are required.").
Definition NotFound : Response := mkResponse 404 (error "Ride not found.").
Definition InvalidState (st : Ride.status_t) : Response :=
  mkResponse 400 (error ("This ride has been " +:+ Ride.status_text st +:+ ".")).
Definition CapacityExceeded : Response :=
  mkResponse 400 (error "Not enough seats available.").
Definition DuplicateBooking : Response :=
  mkResponse 400 (error "You already have a confirmed booking for this ride.").
Definition Booked : Response :=
  mkResponse 201
    (message "✅ Ride booked successfully. Waiting for confirmation.").
Definition Forbidden : Response :=
  mkResponse 403 (error "Ride not found or not yours to cancel").
Definition RideCanceled : Response :=
  mkResponse 200 (message "🚫 Ride canceled successfully").

Definition terminal (st : Ride.status_t) : Prop :=
  st = Ride.completed ∨ st = Ride.canceled.

(** The seats held on a ride: the sum of [seats] over its bookings that are
    not cancelled. *)
Definition holds (rideId : string) (b : Booking.t) : Prop :=
  Booking.ride_id b = rideId ∧ Booking.status b ≠ Booking.cancelled.

#[global] Instance holds_dec rideId b : Decision (holds rideId b).
Proof. unfold holds. apply _. Defined.

Definition booked_seats (rideId : string) (bs : list Booking.t) : Z :=
  foldr Z.add 0 (Booking.seats <$> filter (holds rideId) bs).

(** The caller holds a confirmed booking on the ride. *)
Definition holds_confirmed (s : Store) (userId rideId : string) : Prop :=
  ∃ b, b ∈ bookings s ∧ confirmed_booking userId rideId b.


#[global] Instance terminal_dec st : Decision (terminal st).
Proof. unfold terminal. apply _. Defined.

#[global] Instance holds_confirmed_dec s userId rideId :
  Decision (holds_confirmed s userId rideId).
Proof.
  refine (cast_if
    (decide (Exists (confirmed_booking userId rideId) (bookings s))));
  unfold holds_confirmed; by rewrite <- Exists_exists.
Defined.

(** [seats_available] and [status] of a ride, if the ride exists. *)
Definition ledger (s : Store) (rideId : string)
  : option (Z * Ride.status_t) :=
  (λ r, (Ride.seats_available r, Ride.status r)) <$> rides s !! rideId.

Definition request_status (s : Store) (request_id : string)
  : option RideRequest.status_t :=
  RideRequest.status <$> ride_requests s !! request_id.

(** The scheduled date and time of the ride lie strictly before [now]. *)
Definition past (now : DateTime) (r : Ride.t) : Prop :=
  Ride.date r < now.1 ∨ (Ride.date r = now.1 ∧ Ride.time r < now.2).

#[global] Instance past_dec now r : Decision (past now r).
Proof. unfold past. apply _. Defined.

(** The store a successful [book_ride] leaves. *)
Definition booked (rideId userId : string) (seats : Z) (uuid : string)
    (r : Ride.t) (s : Store) : Store :=
  let left := Ride.seats_available r - seats in
  mkStore
    (<[rideId :=
         Ride.mk (Ride.user_id r) (Ride.origin r) (Ride.destination r)
                 (Ride.date r) (Ride.time r) left
                 (if left =? 0 then Ride.full else Ride.status r)]> (rides s))
    (bookings s ++ [Booking.mk uuid userId rideId seats Booking.pending])
    (ride_requests s).

(** The store after [POST /accepted] or [POST /rejected] went through. *)
Definition resolved (st : RideRequest.status_t) (request_id : string)
    (q : RideRequest.t) (s : Store) : Store :=
  mkStore (rides s) (bookings s)
          (<[request_id := RideRequest.set_status st q]> (ride_requests s)).

(** What the calls keep true of a ride offered with [capacity] seats: it
    exists, its [seats_available] is not negative, and the seats held by its
    bookings together with the seats available make up the capacity. *)
Definition accounted (capacity : Z) (rideId : string) (s : Store) : Prop :=
  ∃ r, rides s !! rideId = Some r
       ∧ 0 ≤ Ride.seats_available r
       ∧ booked_seats rideId (bookings s) + Ride.seats_available r = capacity.

(** ** Sample stores *)

(** The [user_id]s of the table [drivers]. *)
Definition sample_drivers : gset string := {[ "driver-1"; "driver-2" ]}.

(** One ride on offer, with three seats. *)
Definition sample : Store :=
  (run (offerride sample_drivers "driver-1" "New York" "Boston" 20250310 1400
                  3 "69d206c2-1")
       empty_store).1.

(** A ride whose time has come, after a run of the sweeper. *)
Definition ended : Store := sweeper (20250311, 0) sample.

(** After a first booking that is still pending. *)
Definition once_booked : Store :=
  (run (book_ride "69d206c2-1" "ann" 1 "b-1") sample).1.

(** A confirmed booking of a ride that has since been completed. *)
Definition confirmed_then_completed : Store :=
  mkStore
    {[ "69d206c2-1" :=
         Ride.mk "driver-1" "New York" "Boston" 20250310 1400 1
                 Ride.completed ]}
    [Booking.mk "b-1" "ann" "69d206c2-1" 2 Booking.confirmed]
    ∅.

(** A request sent to the driver of the sample ride. *)
Definition requested : Store :=
  (run (ride_req "car-1" "69d206c2-1" "driver-1" "ann" "q-1") sample).1.

(** ** routes/rideRoutes.js: the queries *)

(** [POST /search]: [SELECT * FROM rides WHERE origin = ? AND destination = ?
    AND date = ?]. A row is the [id] with the other columns; the order of the
    rows is the store's own. *)
Definition search (origin destination : string) (date : Z) (s : Store)
  : list (string * Ride.t) :=
  filter (λ row, Ride.origin row.2 = origin
                 ∧ Ride.destination row.2 = destination
                 ∧ Ride.date row.2 = date)
         (map_to_list (rides s)).

(** [GET /available]: [SELECT * FROM rides WHERE seats_available > 0] *)
Definition available (s : Store) : list (string * Ride.t) :=
  filter (λ row, 0 < Ride.seats_available row.2) (map_to_list (rides s)).

Module History.

(** A row of [SELECT bookings.id, rides.origin, rides.destination,
    rides.date, bookings.status]. *)
Record t : Set := mk {
  id : string;
  origin : string;
  destination : string;
  date : Z;
  status : Booking.status_t
}.

End History.

(** [FROM bookings JOIN rides ON bookings.ride_id = rides.id] *)
Definition bookings_join_rides (s : Store) : list (Booking.t * Ride.t) :=
  b ← bookings s;
  r ← option_list (rides s !! Booking.ride_id b);
  [(b, r)].

(** [GET /bookings/history/:user] *)
Definition history (user : string) (s : Store) : list History.t :=
  (λ row : Booking.t * Ride.t,
     History.mk (Booking.id row.1) (Ride.origin row.2)
                (Ride.destination row.2) (Ride.date row.2)
                (Booking.status row.1))
  <$> filter (λ row, Booking.user_id row.1 = user) (bookings_join_rides s).

(** ** routes/rideAgreements.js: the listings and the agreements *)

(** [GET /ride-req/:user]: [SELECT * FROM ride_requests WHERE driver_id = ?] *)
Definition get_ride_req (user : string) (s : Store)
  : list (string * RideRequest.t) :=
  filter (λ row, RideRequest.driver_id row.2 = user)
         (map_to_list (ride_requests s)).

Module Agreement.

Inductive status_t : Set := pending | accepted | rejected.

#[global] Instance agreement_status_eq_dec : EqDecision status_t.
Proof. solve_decision. Defined.

(** A row of [agreements] without its [id], with the columns the handlers
    read and write. *)
Record t : Set := mk {
  passenger_id : string;
  driver_id : string;
  ride_id : string;
  status : status_t
}.

Definition set_status (s : status_t) (a : t) : t :=
  mk (passenger_id a) (driver_id a) (ride_id a) s.

(** [passenger_id = ? OR driver_id = ?] *)
Definition party (user : string) (a : t) : Prop :=
  passenger_id a = user ∨ driver_id a = user.

#[global] Instance party_dec user a : Decision (party user a).
Proof. unfold party. apply _. Defined.

End Agreement.

(** [POST /agreements/accept/:user], on the table [agreements], the only
    one it reads and writes. *)
Definition agreements_accept (agreement_id user_id : string)
    (agreements : gmap string Agreement.t)
  : gmap string Agreement.t * Response :=
  (* SELECT * FROM agreements WHERE id = ?
     AND (passenger_id = ? OR driver_id = ?) *)
  let agreement :=
    filter (Agreement.party user_id)
           (option_list (agreements !! agreement_id)) in
  if (length agreement =? 0)%nat then
    (agreements,
     mkResponse 403 (error "Unauthorized to accept this agreement"))
  else
    (* UPDATE agreements SET status = "accepted" WHERE id = ? *)
    (alter (Agreement.set_status Agreement.accepted) agreement_id agreements,
     mkResponse 200 (message "Agreement accepted successfully")).

(** [GET /agreement/:user]: [SELECT * FROM agreements WHERE passenger_id = ?
    OR driver_id = ?] *)
Definition get_agreement (user : string) (agreements : gmap string Agreement.t)
  : list (string * Agreement.t) :=
  filter (λ row, Agreement.party user row.2) (map_to_list agreements).

(** ** api.js: the authentication middleware *)

(** The character [' ']. *)
Definition space : Stdlib.Strings.Ascii.ascii := Stdlib.Strings.Ascii.Space.

(** [s.split(' ')] *)
Fixpoint split (s : string) : list string :=
  match s with
  | EmptyString => [EmptyString]
  | String c rest =>
    if decide (c = space) then EmptyString :: split rest
    else match split rest with
         | [] => [String c EmptyString]
         | word :: words => String c word :: words
         end
  end.

Module User.

(** The payload [jwt.sign] puts into a token at login. *)
Record t : Set := mk { id : string; email : string; role : string }.

End User.

Section authentication.

(** [jwt.verify(token, process.env.JWT_SECRET, ...)]: the payload of a
    token that verifies. *)
Variable verify : string → option User.t.

(** [authenticateToken]: [inl] is the answer that ends the request, [inr]
    the [req.user] the next handler runs with. *)
Definition authenticateToken (authorization : option string)
  : Response + User.t :=
  let token := authorization ≫= (λ header, split header !! 1%nat) in
  match token with
  | None => inl (mkResponse 403 (error "Access denied"))
  | Some token =>
    if !token then inl (mkResponse 403 (error "Access denied"))
    else match verify token with
         | None => inl (mkResponse 403 (error "Invalid token"))
         | Some user => inr user
         end
  end.

(** [router.post(path, authenticateToken, handler)] *)
Definition route (authorization : option string)
    (handler : User.t → Handler Response) : Handler Response :=
  match authenticateToken authorization with
  | inl r => λ s, (s, inl r)
  | inr user => handler user
  end.

(** [router.post('/offerride/:user', authenticateToken, ...)] *)
Definition post_offerride (drivers : gset string)
    (authorization : option string)
    (user origin destination : string) (date time seats_available : Z)
    (uuid : string) : Handler Response :=
  route authorization
    (λ _, offerride drivers user origin destination date time seats_available
                    uuid).

(** [router.post('/book-ride', authenticateToken, ...)] with
    [userId = req.user.id] *)
Definition post_book_ride (authorization : option string)
    (rideId : string) (seats : Z) (uuid : string) : Handler Response :=
  route authorization (λ user, book_ride rideId (User.id user) seats uuid).

(** [router.post('/cancel-ride', authenticateToken, ...)] with
    [userId = req.user.id] *)
Definition post_cancel_ride (authorization : option string)
    (rideId : string) : Handler Response :=
  route authorization (λ user, cancel_ride rideId (User.id user)).

End authentication.

(** A character other than the space [split] cuts at. *)
Definition spaceless (s : string) : Prop :=
  Forall (λ c, c ≠ space) (String.list_ascii_of_string s).

#[global] Instance spaceless_dec s : Decision (spaceless s).
Proof. unfold spaceless. apply _. Defined.

(** ** What a call can do to a ride *)

(** The ways one call turns a row [r] of [rides] into [r']: not at all, by a
    booking of [seats] seats, by a cancellation, by the sweeper. *)
Inductive ride_step (r r' : Ride.t) : Prop :=
| ride_kept : r' = r → ride_step r r'
| ride_booked (seats : Z) :
    ¬ terminal (Ride.status r) →
    seats ≠ 0 →
    seats ≤ Ride.seats_available r →
    r' = Ride.mk (Ride.user_id r) (Ride.origin r) (Ride.destination r)
           (Ride.date r) (Ride.time r) (Ride.seats_available r - seats)
           (if decide (Ride.seats_available r - seats = 0)
            then Ride.full else Ride.status r) →
    ride_step r r'
| ride_canceled : r' = Ride.set_status Ride.canceled r → ride_step r r'
| ride_completed :
    ¬ terminal (Ride.status r) →
    r' = Ride.set_status Ride.completed r →
    ride_step r r'.

(** No booking of the store is confirmed. *)
Definition none_confirmed (s : Store) : Prop :=
  ∀ b, b ∈ bookings s → Booking.status b ≠ Booking.confirmed.

(** The time [a] is not after the time [b]. *)
Definition not_after (a b : DateTime) : Prop :=
  a.1 < b.1 ∨ (a.1 = b.1 ∧ a.2 ≤ b.2).

#[global] Instance not_after_dec a b : Decision (not_after a b).
Proof. unfold not_after. apply _. Defined.

(** A confirmed booking on a ride that is still open, one seat left. *)
Definition confirmed_then_open : Store :=
  mkStore
    {[ "69d206c2-1" :=
         Ride.mk "driver-1" "New York" "Boston" 20250310 1400 1 Ride.open ]}
    [Booking.mk "b-1" "ann" "69d206c2-1" 2 Booking.confirmed]
    ∅.

(** Calls on the sample ride: bookings, one of them of a negative seat count
    and one after the cancellation, two runs of the sweeper. *)
Definition sample_calls : list Call :=
  [BookRide "69d206c2-1" "ann" 2 "b-1";
   BookRide "69d206c2-1" "cy" (-1) "b-3";
   Sweeper (20250309, 0);
   CancelRide "69d206c2-1" "driver-1";
   BookRide "69d206c2-1" "eve" 1 "b-5";
   Sweeper (20250311, 0)].


(** The columns of a ride that the booking history shows. *)
Definition journey (r : Ride.t) : string * string * Z :=
  (Ride.origin r, Ride.destination r, Ride.date r).

(** The call is a call of [book_ride] by [user]. *)
Definition booking_by (user : string) (c : Call) : Prop :=
  match c with
  | BookRide _ userId _ _ => userId = user
  | _ => False
  end.

#[global] Instance booking_by_dec user c : Decision (booking_by user c).
Proof. destruct c; simpl; apply _. Defined.

(** The call is one of the ride-request handlers. *)
Definition request_call (c : Call) : Prop :=
  match c with
  | RideReq _ _ _ _ _ | Accepted _ _ | Rejected _ _ => True
  | _ => False
  end.

#[global] Instance request_call_dec c : Decision (request_call c).
Proof. destruct c; simpl; apply _. Defined.

(** The answers of the ride-request and agreement handlers. *)
Definition RequestSent : Response :=
  mkResponse 201 (message "Ride request sent successfully").
Definition RequestAccepted : Response :=
  mkResponse 200 (message "Ride request accepted").
Definition RequestRejected : Response :=
  mkResponse 200 (message "Ride request rejected").
Definition Unauthorized : Response :=
  mkResponse 403 (error "Unauthorized action").
Definition AgreementAccepted : Response :=
  mkResponse 200 (message "Agreement accepted successfully").
Definition AgreementRefused : Response :=
  mkResponse 403 (error "Unauthorized to accept this agreement").

(** Two agreements: one between ann and driver-1, rejected, one between bob
    and driver-2, pending. *)
Definition sample_agreements : gmap string Agreement.t :=
  {[ "a-1" := Agreement.mk "ann" "driver-1" "69d206c2-1" Agreement.rejected;
     "a-2" := Agreement.mk "bob" "driver-2" "7a1f03d4-2" Agreement.pending ]}.

(** The answers of [authenticateToken]. *)
Definition AccessDenied : Response := mkResponse 403 (error "Access denied").
Definition InvalidToken : Response := mkResponse 403 (error "Invalid token").

(** A verifier that knows two tokens. *)
Definition sample_verify (token : string) : option User.t :=
  if decide (token = "tok-ann")
  then Some (User.mk "ann" "ann@example.com" "passenger")
  else if decide (token = "tok-driver-1")
  then Some (User.mk "driver-1" "driver-1@example.com" "driver")
  else None.

(** * Properties *)

(** ** Sample runs *)

Example sample_ride :
  rides sample !! "69d206c2-1"
  = Some (Ride.mk "driver-1" "New York" "Boston" 20250310 1400 3 Ride.open).
Proof. vm_compute. reflexivity. Qed.

Example book_two_seats :
  let '(s, r) := run (book_ride "69d206c2-1" "ann" 2 "b-1") sample in
  r = Booked
  ∧ rides s !! "69d206c2-1"
    = Some (Ride.mk "driver-1" "New York" "Boston" 20250310 1400 1 Ride.open)
  ∧ bookings s = [Booking.mk "b-1" "ann" "69d206c2-1" 2 Booking.pending].
Proof. vm_compute. auto. Qed.

Example ended_ride : ledger ended "69d206c2-1" = Some (3, Ride.completed).
Proof. vm_compute. reflexivity. Qed.

(** ** The handlers, case by case *)

Lemma alter_present {A} (f : A → A) (m : gmap string A) k x :
  m !! k = Some x → alter f k m = <[k := f x]> m.
Proof.
  intros Hk. apply map_eq. intros i. destruct (decide (k = i)) as [<-|Hne].
  - by rewrite lookup_alter_eq, lookup_insert_eq, Hk.
  - by rewrite lookup_alter_ne, lookup_insert_ne.
Qed.

Lemma includes_terminal st :
  includes [Ride.completed; Ride.canceled] st = bool_decide (terminal st).
Proof. by destruct st. Qed.

Lemma missing_fields (rideId : string) (seats : Z) :
  !rideId || !seats = bool_decide (rideId = "" ∨ seats = 0).
Proof.
  unfold truthy, string_truthy, number_truthy.
  by rewrite !bool_decide_not, !negb_involutive, bool_decide_or.
Qed.

Lemma run_book_ride s rideId userId seats uuid :
  run (book_ride rideId userId seats uuid) s =
  if decide (rideId = "" ∨ seats = 0) then (s, InvalidInput)
  else match rides s !! rideId with
       | None => (s, NotFound)
       | Some r =>
         if decide (terminal (Ride.status r))
         then (s, InvalidState (Ride.status r))
         else if decide (Ride.seats_available r < seats)
         then (s, CapacityExceeded)
         else if decide (filter (confirmed_booking userId rideId) (bookings s)
                         = [])
         then (booked rideId userId seats uuid r s, Booked)
         else (s, DuplicateBooking)
       end.
Proof.
  unfold book_ride. rewrite missing_fields.
  case_bool_decide as Hin; [by rewrite decide_True|rewrite decide_False by done].
  unfold run, mbind, Handler_bind, select_ride; simpl.
  destruct (rides s !! rideId) as [r|] eqn:Hr; simpl; [|done].
  rewrite includes_terminal. case_bool_decide as Hterm;
    [by rewrite decide_True|rewrite decide_False by done].
  destruct (Z.ltb_spec (Ride.seats_available r) seats) as [Hlt|Hge];
    [by rewrite decide_True|rewrite decide_False by lia].
  destruct (filter _ (bookings s)) as [|b bs] eqn:Hf; simpl; [|done].
  rewrite lookup_alter_eq, Hr; simpl.
  unfold booked, update_status, update_rides; simpl.
  destruct (Ride.seats_available r - seats =? 0) eqn:Hz; simpl.
  - rewrite alter_alter_eq. by erewrite alter_present.
  - by erewrite alter_present.
Qed.

(** The cases of [run_book_ride] for a call on [rideId] in the store [s], in
    the order of the checks; [Hr] names the row read from [rides]. *)
Ltac book_ride_cases s rideId Hr :=
  rewrite run_book_ride;
  destruct (decide (rideId = "" ∨ _ = 0));
    [|destruct (rides s !! rideId) eqn:Hr;
      [destruct (decide (terminal _));
       [|destruct (decide (_ < _));
         [|destruct (decide (filter _ _ = []))]]|]].

Lemma book_ride_missing_fields s rideId userId seats uuid :
  rideId = "" ∨ seats = 0 →
  run (book_ride rideId userId seats uuid) s = (s, InvalidInput).
Proof. intros Hin. by rewrite run_book_ride, decide_True. Qed.

Lemma run_offerride
    drivers s user origin destination date time seats_available uuid :
  run (offerride drivers user origin destination date time seats_available
                 uuid) s
  = if decide (user ∈ drivers)
    then (mkStore
            (<[uuid := Ride.mk user origin destination date time
                               seats_available Ride.open]> (rides s))
            (bookings s) (ride_requests s),
          mkResponse 200 (message "Ride offered successfully"))
    else (s, mkResponse 500 (error no_referenced_row)).
Proof.
  unfold offerride, run, mbind, Handler_bind, insert_ride; simpl.
  by destruct (decide (user ∈ drivers)).
Qed.

Lemma run_cancel_ride s rideId userId :
  run (cancel_ride rideId userId) s =
  match rides s !! rideId with
  | Some r =>
    if decide (Ride.user_id r = userId)
    then (mkStore (<[rideId := Ride.set_status Ride.canceled r]> (rides s))
                  (bookings s) (ride_requests s),
          RideCanceled)
    else (s, Forbidden)
  | None => (s, Forbidden)
  end.
Proof.
  unfold cancel_ride, run, mbind, Handler_bind, select_ride_of; simpl.
  destruct (rides s !! rideId) as [r|] eqn:Hr; simpl; [|done].
  rewrite filter_cons, filter_nil.
  destruct (decide (Ride.user_id r = userId)); simpl; [|done].
  by erewrite alter_present.
Qed.

Lemma run_accepted s request_id driver_id :
  run (accepted request_id driver_id) s =
  match ride_requests s !! request_id with
  | Some q =>
    if decide (RideRequest.driver_id q = driver_id)
    then (resolved RideRequest.accepted request_id q s,
          mkResponse 200 (message "Ride request accepted"))
    else (s, mkResponse 403 (error "Unauthorized action"))
  | None => (s, mkResponse 403 (error "Unauthorized action"))
  end.
Proof.
  unfold accepted, run, mbind, Handler_bind, select_request_of; simpl.
  destruct (ride_requests s !! request_id) as [q|] eqn:Hq; simpl; [|done].
  rewrite filter_cons, filter_nil.
  destruct (decide (RideRequest.driver_id q = driver_id)); simpl; [|done].
  unfold resolved. by erewrite alter_present.
Qed.

Lemma run_rejected s request_id driver_id :
  run (rejected request_id driver_id) s =
  match ride_requests s !! request_id with
  | Some q =>
    if decide (RideRequest.driver_id q = driver_id)
    then (resolved RideRequest.rejected request_id q s,
          mkResponse 200 (message "Ride request rejected"))
    else (s, mkResponse 403 (error "Unauthorized action"))
  | None => (s, mkResponse 403 (error "Unauthorized action"))
  end.
Proof.
  unfold rejected, run, mbind, Handler_bind, select_request_of; simpl.
  destruct (ride_requests s !! request_id) as [q|] eqn:Hq; simpl; [|done].
  rewrite filter_cons, filter_nil.
  destruct (decide (RideRequest.driver_id q = driver_id)); simpl; [|done].
  unfold resolved. by erewrite alter_present.
Qed.

Lemma run_ride_req s vehicle ride_id driver_id passenger_id uuid :
  rides (run (ride_req vehicle ride_id driver_id passenger_id uuid) s).1
  = rides s
  ∧ bookings (run (ride_req vehicle ride_id driver_id passenger_id uuid) s).1
    = bookings s.
Proof.
  unfold ride_req, run, mbind, Handler_bind, insert_ride_request.
  destruct (!ride_id || !driver_id); [done|].
  by destruct (decide (is_Some _)).
Qed.

(** The query of [book_ride] for a confirmed booking finds one exactly when
    the caller holds one. *)
Lemma holds_confirmed_filter s userId rideId :
  holds_confirmed s userId rideId
  ↔ filter (confirmed_booking userId rideId) (bookings s) ≠ [].
Proof.
  unfold holds_confirmed. split.
  - intros (b & Hb & Hc) Hnil.
    assert (b ∈ filter (confirmed_booking userId rideId) (bookings s)) as Hin
      by (apply list_elem_of_filter; done).
    rewrite Hnil in Hin. by apply not_elem_of_nil in Hin.
  - destruct (filter _ (bookings s)) as [|b bs] eqn:Hf; [done|]. intros _.
    assert (b ∈ filter (confirmed_booking userId rideId) (bookings s)) as Hin
      by (rewrite Hf; left).
    apply list_elem_of_filter in Hin as [Hc Hb]. by exists b.
Qed.

Lemma no_confirmed_filter s userId rideId :
  ¬ holds_confirmed s userId rideId →
  filter (confirmed_booking userId rideId) (bookings s) = [].
Proof.
  intros Hconf. destruct (filter _ (bookings s)) eqn:Hf; [done|].
  exfalso. apply Hconf, holds_confirmed_filter. by rewrite Hf.
Qed.

(** The answers of [book_ride] are pairwise distinct. *)
Lemma InvalidState_not_DuplicateBooking st : InvalidState st ≠ DuplicateBooking.
Proof. by destruct st. Qed.


Lemma InvalidState_not_InvalidInput st : InvalidState st ≠ InvalidInput.
Proof. by destruct st. Qed.

(** A successful [book_ride] does not change who holds a confirmed booking. *)
Lemma holds_confirmed_booked s rideId userId seats uuid r u k :
  holds_confirmed (booked rideId userId seats uuid r s) u k
  ↔ holds_confirmed s u k.
Proof.
  unfold holds_confirmed, booked; simpl. split.
  - intros (b & Hb & Hc). exists b. split; [|done].
    apply elem_of_app in Hb as [Hb|Hb]; [done|].
    apply list_elem_of_singleton in Hb as ->.
    by destruct Hc as (_ & _ & ?).
  - intros (b & Hb & Hc). exists b. split; [|done].
    apply elem_of_app. by left.
Qed.

(** ** The seat ledger: [book_ride] *)

(** C2, as the handler has it. A call with a non-empty ride id and a
    non-zero seat count, on an existing ride that is neither completed nor
    canceled, for no more seats than are available, by a caller without a
    confirmed booking on the ride, is answered 201; it appends one pending
    booking, takes exactly [seats] from [seats_available], sets the status to
    [full] when nothing is left and leaves it as it was otherwise; nothing
    else in the store changes. On a ride with 3 seats and status [open]:
    2 seats are booked (1 left, still open), 2 more are refused with
    CapacityExceeded and the store is untouched, 1 seat is booked (0 left,
    full). A call without a ride id or for 0 seats is answered InvalidInput
    and changes nothing. *)
Theorem book_succeeds :
  (∀ s rideId userId seats uuid r,
     rides s !! rideId = Some r →
     rideId ≠ "" → seats ≠ 0 →
     ¬ terminal (Ride.status r) →
     seats ≤ Ride.seats_available r →
     ¬ holds_confirmed s userId rideId →
     ∃ s', run (book_ride rideId userId seats uuid) s = (s', Booked)
       ∧ bookings s'
         = bookings s ++ [Booking.mk uuid userId rideId seats Booking.pending]
       ∧ rides s'
         = <[rideId :=
               Ride.mk (Ride.user_id r) (Ride.origin r) (Ride.destination r)
                 (Ride.date r) (Ride.time r)
                 (Ride.seats_available r - seats)
                 (if decide (Ride.seats_available r - seats = 0)
                  then Ride.full else Ride.status r)]> (rides s)
       ∧ ride_requests s' = ride_requests s)
  ∧ (∀ s rideId r a b c ida idb idc,
       rides s !! rideId = Some r →
       rideId ≠ "" →
       Ride.seats_available r = 3 → Ride.status r = Ride.open →
       ¬ holds_confirmed s a rideId → ¬ holds_confirmed s c rideId →
       ∃ s1 s2,
         run (book_ride rideId a 2 ida) s = (s1, Booked)
         ∧ ledger s1 rideId = Some (1, Ride.open)
         ∧ run (book_ride rideId b 2 idb) s1 = (s1, CapacityExceeded)
         ∧ run (book_ride rideId c 1 idc) s1 = (s2, Booked)
         ∧ ledger s2 rideId = Some (0, Ride.full))
  ∧ (∀ s rideId userId seats uuid,
       rideId = "" ∨ seats = 0 →
       run (book_ride rideId userId seats uuid) s = (s, InvalidInput)).
Proof.
  split_and!; [| |intros; by apply book_ride_missing_fields].
  - intros s rideId userId seats uuid r Hr Hid Hseats Hterm Hcap Hconf.
    exists (booked rideId userId seats uuid r s).
    rewrite run_book_ride, Hr.
    rewrite decide_False by (by intros [?|?]).
    rewrite decide_False by done.
    rewrite decide_False by lia.
    rewrite decide_True by by apply no_confirmed_filter.
    unfold booked; simpl. repeat split.
    destruct (Z.eqb_spec (Ride.seats_available r - seats) 0);
      [by rewrite decide_True|by rewrite decide_False].
  - intros s rideId r a b c ida idb idc Hr Hid Hsa Hst Ha Hc.
    set (s1 := booked rideId a 2 ida r s).
    assert (∃ r1, rides s1 !! rideId = Some r1
                  ∧ Ride.seats_available r1 = 1 ∧ Ride.status r1 = Ride.open)
      as (r1 & Hr1 & Hsa1 & Hst1).
    { eexists. unfold s1, booked; simpl. rewrite lookup_insert_eq.
      split; [done|]. simpl. rewrite Hsa. by simpl. }
    exists s1, (booked rideId c 1 idc r1 s1).
    assert (filter (confirmed_booking a rideId) (bookings s) = []) as Hfa
      by by apply no_confirmed_filter.
    assert (filter (confirmed_booking c rideId) (bookings s1) = []) as Hfc.
    { apply no_confirmed_filter. unfold s1. by rewrite holds_confirmed_booked. }
    repeat split.
    + rewrite run_book_ride, Hr, Hst, Hsa, Hfa.
      rewrite decide_False by (by intros [?|?]). done.
    + unfold ledger. rewrite Hr1; simpl. by rewrite Hsa1, Hst1.
    + rewrite run_book_ride, Hr1, Hst1, Hsa1.
      rewrite decide_False by (by intros [?|?]). done.
    + rewrite run_book_ride, Hr1, Hst1, Hsa1.
      rewrite Hfc.
      rewrite decide_False by (by intros [?|?]). done.
    + unfold ledger, booked; simpl. rewrite lookup_insert_eq; simpl.
      by rewrite Hsa1.
Qed.

Lemma book_succeeds_witness :
  let r := Ride.mk "driver-1" "New York" "Boston" 20250310 1400 3 Ride.open in
  (rides sample !! "69d206c2-1" = Some r
   ∧ ¬ terminal (Ride.status r)
   ∧ 2 ≤ Ride.seats_available r
   ∧ ¬ holds_confirmed sample "ann" "69d206c2-1")
  ∧ ∃ s', run (book_ride "69d206c2-1" "ann" 2 "b-1") sample = (s', Booked)
      ∧ bookings s'
        = bookings sample
          ++ [Booking.mk "b-1" "ann" "69d206c2-1" 2 Booking.pending]
      ∧ rides s'
        = <["69d206c2-1" :=
              Ride.mk "driver-1" "New York" "Boston" 20250310 1400 (3 - 2)
                (if decide (3 - 2 = 0) then Ride.full else Ride.open)]>
            (rides sample)
      ∧ ride_requests s' = ride_requests sample.
Proof.
  assert (rides sample !! "69d206c2-1"
          = Some (Ride.mk "driver-1" "New York" "Boston" 20250310 1400 3
                          Ride.open)) as Hr by (vm_compute; reflexivity).
  assert (¬ terminal Ride.open) as Hterm by (by intros [?|?]).
  assert (¬ holds_confirmed sample "ann" "69d206c2-1") as Hconf
    by (apply (bool_decide_unpack _); vm_compute; exact I).
  simpl. split; [split_and!; done || (simpl; lia)|].
  apply (proj1 book_succeeds sample "69d206c2-1" "ann" 2 "b-1" _ Hr);
    [done|lia|done|simpl; lia|done].
Defined.

(** C2 as stated fails for a request of no seats: 0 does not exceed the 3
    seats of the ride and the caller has no booking at all, yet the call is
    turned down as incomplete and no booking is made. *)
Lemma book_zero_seats_refused :
  ledger sample "69d206c2-1" = Some (3, Ride.open)
  ∧ ¬ holds_confirmed sample "ann" "69d206c2-1"
  ∧ run (book_ride "69d206c2-1" "ann" 0 "b-1") sample = (sample, InvalidInput)
  ∧ InvalidInput ≠ Booked
  ∧ bookings sample = [].
Proof.
  split; [vm_compute; reflexivity|].
  split; [apply (bool_decide_unpack _); vm_compute; exact I|].
  split; [by rewrite run_book_ride|].
  split; [done|reflexivity].
Qed.

(** C3, as the handler has it. On a ride that is completed or canceled
    [book_ride] never changes the store: no booking is made and no ride is
    written; a call carrying a ride id and a non-zero seat count is answered
    with InvalidState, naming the status; a call without a ride id or for 0
    seats is answered InvalidInput. *)
Theorem book_terminal_rejected s rideId userId seats uuid r :
  rides s !! rideId = Some r →
  terminal (Ride.status r) →
  (run (book_ride rideId userId seats uuid) s).1 = s
  ∧ (rideId ≠ "" → seats ≠ 0 →
     run (book_ride rideId userId seats uuid) s
     = (s, InvalidState (Ride.status r)))
  ∧ (rideId = "" ∨ seats = 0 →
     run (book_ride rideId userId seats uuid) s = (s, InvalidInput)).
Proof.
  intros Hr Hterm. rewrite run_book_ride, Hr. rewrite (decide_True _ _ Hterm).
  split_and!.
  - by destruct (decide (rideId = "" ∨ seats = 0)).
  - intros Hid Hseats. by rewrite decide_False by (by intros [?|?]).
  - intros Hin. by rewrite decide_True.
Qed.

Lemma book_terminal_rejected_witness :
  (rides ended !! "69d206c2-1"
   = Some (Ride.mk "driver-1" "New York" "Boston" 20250310 1400 3
                   Ride.completed)
   ∧ terminal Ride.completed)
  ∧ (run (book_ride "69d206c2-1" "ann" 1 "b-1") ended).1 = ended
  ∧ run (book_ride "69d206c2-1" "ann" 1 "b-1") ended
    = (ended, InvalidState Ride.completed).
Proof.
  assert (rides ended !! "69d206c2-1"
          = Some (Ride.mk "driver-1" "New York" "Boston" 20250310 1400 3
                          Ride.completed)) as Hr by (vm_compute; reflexivity).
  assert (terminal Ride.completed) as Hterm by (by left).
  split; [done|].
  destruct (book_terminal_rejected ended "69d206c2-1" "ann" 1 "b-1" _ Hr Hterm)
    as (Hsame & Hanswer & _).
  split; [exact Hsame|]. apply Hanswer; [done|lia].
Defined.

(** C3 as stated fails for a request of no seats on a completed ride: it is
    answered as an incomplete request (InvalidInput), not with
    InvalidState. *)
Lemma book_terminal_zero_seats :
  ledger ended "69d206c2-1" = Some (3, Ride.completed)
  ∧ run (book_ride "69d206c2-1" "ann" 0 "b-1") ended = (ended, InvalidInput)
  ∧ InvalidInput ≠ InvalidState Ride.completed.
Proof.
  split; [vm_compute; reflexivity|].
  split; [by rewrite run_book_ride|done].
Qed.

(** C4, as the handler has it. [book_ride] answers DuplicateBooking exactly
    when the call has passed the earlier checks (a ride id and a non-zero
    seat count are given, the ride exists, is neither completed nor canceled
    and has the seats asked for) and the caller holds a confirmed booking on
    the ride. A caller whose bookings on the ride are all pending or cancelled is
    never answered DuplicateBooking, and books again whenever the earlier
    checks pass. *)
Theorem duplicate_booking s rideId userId seats uuid :
  ((run (book_ride rideId userId seats uuid) s).2 = DuplicateBooking
   ↔ rideId ≠ "" ∧ seats ≠ 0
     ∧ (∃ r, rides s !! rideId = Some r
             ∧ ¬ terminal (Ride.status r)
             ∧ seats ≤ Ride.seats_available r)
     ∧ holds_confirmed s userId rideId)
  ∧ ((∀ b, b ∈ bookings s →
           Booking.user_id b = userId → Booking.ride_id b = rideId →
           Booking.status b = Booking.pending
           ∨ Booking.status b = Booking.cancelled) →
     (run (book_ride rideId userId seats uuid) s).2 ≠ DuplicateBooking
     ∧ ∀ r, rideId ≠ "" → seats ≠ 0 →
            rides s !! rideId = Some r →
            ¬ terminal (Ride.status r) →
            seats ≤ Ride.seats_available r →
            (run (book_ride rideId userId seats uuid) s).2 = Booked).
Proof.
  assert ((run (book_ride rideId userId seats uuid) s).2 = DuplicateBooking
   ↔ rideId ≠ "" ∧ seats ≠ 0
     ∧ (∃ r, rides s !! rideId = Some r
             ∧ ¬ terminal (Ride.status r)
             ∧ seats ≤ Ride.seats_available r)
     ∧ holds_confirmed s userId rideId) as Hiff.
  { rewrite run_book_ride, holds_confirmed_filter.
    destruct (decide (rideId = "" ∨ seats = 0)) as [Hin|Hin]; simpl.
    { split; [done|]. intros (? & ? & _). by destruct Hin. }
    destruct (rides s !! rideId) as [r|] eqn:Hr; simpl;
      [|split; [done|by intros (_ & _ & (? & ? & _) & _)]].
    destruct (decide (terminal (Ride.status r))) as [Hterm|Hterm]; simpl.
    { split; [by intros ?%InvalidState_not_DuplicateBooking|].
      intros (_ & _ & (r' & [= <-] & ? & _) & _). done. }
    destruct (decide (Ride.seats_available r < seats)) as [Hlt|Hge]; simpl.
    { split; [done|]. intros (_ & _ & (r' & [= <-] & _ & ?) & _). lia. }
    destruct (decide (filter _ (bookings s) = [])) as [Hf|Hf]; simpl.
    { split; [done|]. by intros (_ & _ & _ & ?). }
    split; [intros _|done].
    split_and!; [by intros ->; apply Hin; left
                |by intros ->; apply Hin; right| |done].
    exists r. split_and!; [done|done|lia]. }
  split; [exact Hiff|]. intros Hall.
  assert (¬ holds_confirmed s userId rideId) as Hconf.
  { intros (b & Hb & Hu & Hk & Hst).
    destruct (Hall b Hb Hu Hk) as [Hp|Hp]; rewrite Hst in Hp; done. }
  split.
  - intros Hdup. apply Hiff in Hdup as (_ & _ & _ & ?). done.
  - intros r Hid Hseats Hr Hterm Hcap. rewrite run_book_ride, Hr.
    rewrite decide_False by (by intros [?|?]).
    rewrite decide_False by done. rewrite decide_False by lia.
    by rewrite decide_True by by apply no_confirmed_filter.
Qed.

Lemma duplicate_booking_witness :
  (∀ b, b ∈ bookings once_booked →
        Booking.user_id b = "ann" → Booking.ride_id b = "69d206c2-1" →
        Booking.status b = Booking.pending
        ∨ Booking.status b = Booking.cancelled)
  ∧ bookings once_booked
    = [Booking.mk "b-1" "ann" "69d206c2-1" 1 Booking.pending]
  ∧ (run (book_ride "69d206c2-1" "ann" 1 "b-2") once_booked).2 = Booked.
Proof.
  assert (bookings once_booked
          = [Booking.mk "b-1" "ann" "69d206c2-1" 1 Booking.pending]) as Hbs
    by (vm_compute; reflexivity).
  assert (∀ b, b ∈ bookings once_booked →
        Booking.user_id b = "ann" → Booking.ride_id b = "69d206c2-1" →
        Booking.status b = Booking.pending
        ∨ Booking.status b = Booking.cancelled) as Hall.
  { intros b Hb _ _. rewrite Hbs in Hb.
    apply list_elem_of_singleton in Hb as ->. by left. }
  split; [exact Hall|]. split; [exact Hbs|].
  refine (proj2 (proj2 (duplicate_booking once_booked "69d206c2-1" "ann" 1
                                          "b-2") Hall)
                (Ride.mk "driver-1" "New York" "Boston" 20250310 1400 2
                         Ride.open) _ _ _ _ _);
    [done|lia|vm_compute; reflexivity|by intros [?|?]|simpl; lia].
Defined.

(** C4 as stated fails in the direction from the confirmed booking to the
    answer: the holder of a confirmed booking who books again on the ride
    once it is completed is answered InvalidState. *)
Lemma confirmed_holder_other_answer :
  holds_confirmed confirmed_then_completed "ann" "69d206c2-1"
  ∧ (run (book_ride "69d206c2-1" "ann" 1 "b-2") confirmed_then_completed).2
    = InvalidState Ride.completed
  ∧ (run (book_ride "69d206c2-1" "ann" 1 "b-2") confirmed_then_completed).2
    ≠ DuplicateBooking.
Proof.
  split; [apply (bool_decide_unpack _); vm_compute; exact I|].
  assert ((run (book_ride "69d206c2-1" "ann" 1 "b-2") confirmed_then_completed).2
          = InvalidState Ride.completed) as ->
    by (vm_compute; reflexivity).
  split; [reflexivity|done].
Qed.

(** C6, as the handler has it. On an existing ride (its id is not the
    empty string) that is neither completed nor canceled, a call for a
    negative number of seats that is not above [seats_available], which
    every negative number is when [seats_available] is not negative, by a
    caller without a confirmed booking, passes the capacity check, is
    answered 201, records a pending booking with the negative seat count and
    raises [seats_available] to [seats_available - seats], strictly above
    what it was; the seat count and the new [seats_available] being numbers
    an [INT] column holds. *)
Theorem book_negative_seats s rideId userId seats uuid r :
  rides s !! rideId = Some r →
  rideId ≠ "" →
  ¬ terminal (Ride.status r) →
  seats < 0 →
  seats ≤ Ride.seats_available r →
  INT seats → INT (Ride.seats_available r - seats) →
  ¬ holds_confirmed s userId rideId →
  (Ride.seats_available r <? seats) = false
  ∧ ∃ s' r',
      run (book_ride rideId userId seats uuid) s = (s', Booked)
      ∧ bookings s'
        = bookings s ++ [Booking.mk uuid userId rideId seats Booking.pending]
      ∧ rides s' !! rideId = Some r'
      ∧ Ride.seats_available r' = Ride.seats_available r - seats
      ∧ Ride.seats_available r < Ride.seats_available r'.
Proof.
  intros Hr Hid Hterm Hneg Hcap _ _ Hconf. split; [lia|].
  eexists _, _. rewrite run_book_ride, Hr.
  rewrite decide_False by (intros [?|?]; [done|lia]).
  rewrite decide_False by done. rewrite decide_False by lia.
  rewrite decide_True by by apply no_confirmed_filter.
  split; [reflexivity|]. unfold booked; simpl.
  rewrite lookup_insert_eq. split_and!; [done|reflexivity|done|simpl; lia].
Qed.

Lemma book_negative_seats_witness :
  let r := Ride.mk "driver-1" "New York" "Boston" 20250310 1400 3 Ride.open in
  (rides sample !! "69d206c2-1" = Some r
   ∧ ¬ terminal (Ride.status r)
   ∧ -5 ≤ Ride.seats_available r
   ∧ INT (-5) ∧ INT (Ride.seats_available r - -5)
   ∧ ¬ holds_confirmed sample "ann" "69d206c2-1")
  ∧ (3 <? -5) = false
  ∧ ∃ s' r',
      run (book_ride "69d206c2-1" "ann" (-5) "b-1") sample = (s', Booked)
      ∧ bookings s'
        = bookings sample
          ++ [Booking.mk "b-1" "ann" "69d206c2-1" (-5) Booking.pending]
      ∧ rides s' !! "69d206c2-1" = Some r'
      ∧ Ride.seats_available r' = 3 - -5
      ∧ 3 < Ride.seats_available r'.
Proof.
  assert (rides sample !! "69d206c2-1"
          = Some (Ride.mk "driver-1" "New York" "Boston" 20250310 1400 3
                          Ride.open)) as Hr by (vm_compute; reflexivity).
  assert (¬ terminal Ride.open) as Hterm by (by intros [?|?]).
  assert (¬ holds_confirmed sample "ann" "69d206c2-1") as Hconf
    by (apply (bool_decide_unpack _); vm_compute; exact I).
  assert (INT (-5)) as Hseats by (unfold INT; lia).
  assert (INT (3 - -5)) as Hleft by (unfold INT; lia).
  simpl. split; [split_and!; done || (simpl; lia)|].
  apply (book_negative_seats sample "69d206c2-1" "ann" (-5) "b-1" _ Hr);
    [done|done|lia|simpl; lia|done|done|done].
Defined.

(** C6 as stated fails on a ride with fewer seats than are asked for, which
    a ride offered with a negative number of seats is: on the ride offered
    with -5 seats a call for -2 seats is refused by the capacity check. *)
Lemma book_negative_seats_refused :
  let s := (run (offerride sample_drivers "driver-1" "New York" "Boston"
                           20250310 1400 (-5) "69d206c2-1") empty_store).1 in
  ledger s "69d206c2-1" = Some (-5, Ride.open)
  ∧ ¬ holds_confirmed s "ann" "69d206c2-1"
  ∧ run (book_ride "69d206c2-1" "ann" (-2) "b-1") s = (s, CapacityExceeded)
  ∧ CapacityExceeded ≠ Booked.
Proof.
  intros s.
  split; [vm_compute; reflexivity|].
  split; [apply (bool_decide_unpack _); vm_compute; exact I|].
  split; [|done].
  rewrite run_book_ride.
  assert (rides s !! "69d206c2-1"
          = Some (Ride.mk "driver-1" "New York" "Boston" 20250310 1400 (-5)
                          Ride.open)) as -> by (vm_compute; reflexivity).
  done.
Qed.

(** ** The seat ledger: [cancel_ride] *)

(** C7. When the ride does not exist, or exists and belongs to another
    user, [cancel_ride] gives one and the same answer (403, "Ride not found or
    not yours to cancel") and leaves the store as it was. *)
Theorem cancel_ride_not_owner s rideId userId :
  (rides s !! rideId = None
   ∨ ∃ r, rides s !! rideId = Some r ∧ Ride.user_id r ≠ userId) →
  run (cancel_ride rideId userId) s = (s, Forbidden).
Proof.
  intros [Hr|(r & Hr & Hne)]; rewrite run_cancel_ride, Hr; [done|].
  by rewrite decide_False.
Qed.

Lemma cancel_ride_not_owner_witness :
  (rides sample !! "no-such-ride" = None
   ∧ run (cancel_ride "no-such-ride" "driver-1") sample = (sample, Forbidden))
  ∧ ((∃ r, rides sample !! "69d206c2-1" = Some r
           ∧ Ride.user_id r ≠ "driver-2")
     ∧ run (cancel_ride "69d206c2-1" "driver-2") sample = (sample, Forbidden)).
Proof.
  assert (rides sample !! "no-such-ride" = None) as Hnone
    by (vm_compute; reflexivity).
  assert (∃ r, rides sample !! "69d206c2-1" = Some r
               ∧ Ride.user_id r ≠ "driver-2") as Hother
    by (eexists; split; [vm_compute; reflexivity|done]).
  split; (split; [done|]).
  - apply cancel_ride_not_owner. by left.
  - apply cancel_ride_not_owner. by right.
Defined.

(** C8. When the caller owns the ride, [cancel_ride] is answered 200 and
    writes ['canceled'] into the status of that ride, whatever the status
    was; the other columns of the ride, [seats_available] among them, the
    other rides, every booking and every ride request stay as they were. *)
Theorem cancel_ride_owner s rideId userId r :
  rides s !! rideId = Some r →
  Ride.user_id r = userId →
  run (cancel_ride rideId userId) s
  = (mkStore
       (<[rideId :=
            Ride.mk (Ride.user_id r) (Ride.origin r) (Ride.destination r)
                    (Ride.date r) (Ride.time r) (Ride.seats_available r)
                    Ride.canceled]> (rides s))
       (bookings s) (ride_requests s),
     RideCanceled).
Proof.
  intros Hr Hu. rewrite run_cancel_ride, Hr. by rewrite decide_True.
Qed.

Lemma cancel_ride_owner_witness :
  let r := Ride.mk "driver-1" "New York" "Boston" 20250310 1400 2 Ride.open in
  (rides once_booked !! "69d206c2-1" = Some r
   ∧ Ride.user_id r = "driver-1")
  ∧ run (cancel_ride "69d206c2-1" "driver-1") once_booked
    = (mkStore
         (<["69d206c2-1" :=
              Ride.mk "driver-1" "New York" "Boston" 20250310 1400 2
                      Ride.canceled]> (rides once_booked))
         [Booking.mk "b-1" "ann" "69d206c2-1" 1 Booking.pending] ∅,
       RideCanceled).
Proof.
  assert (rides once_booked !! "69d206c2-1"
          = Some (Ride.mk "driver-1" "New York" "Boston" 20250310 1400 2
                          Ride.open)) as Hr by (vm_compute; reflexivity).
  simpl. split; [done|].
  exact (cancel_ride_owner once_booked "69d206c2-1" "driver-1" _ Hr eq_refl).
Defined.

(** ** Terminal rides *)

(** [book_ride] writes no ride that is completed or canceled. *)
Lemma book_keeps_terminal s rideId userId seats uuid k r :
  rides s !! k = Some r → terminal (Ride.status r) →
  rides (run (book_ride rideId userId seats uuid) s).1 !! k = Some r.
Proof.
  intros Hk Hterm. book_ride_cases s rideId Hr; try done.
  unfold booked; simpl. rewrite lookup_insert_ne; [done|].
  intros ->. rewrite Hr in Hk. by injection Hk as ->.
Qed.

(** The sweeper writes no ride that is completed or canceled. *)
Lemma sweeper_keeps_terminal now s k r :
  rides s !! k = Some r → terminal (Ride.status r) →
  rides (sweeper now s) !! k = Some r.
Proof.
  intros Hk Hterm. unfold sweeper; simpl. rewrite lookup_fmap, Hk; simpl.
  unfold mark_completed, due. rewrite includes_terminal.
  by rewrite (bool_decide_eq_true_2 _ Hterm), andb_false_r.
Qed.

(** [cancel_ride] never writes [seats_available]. *)
Lemma cancel_ride_keeps_seats s rideId userId k :
  Ride.seats_available <$> rides (run (cancel_ride rideId userId) s).1 !! k
  = Ride.seats_available <$> rides s !! k.
Proof.
  rewrite run_cancel_ride.
  destruct (rides s !! rideId) as [r|] eqn:Hr; [|done].
  destruct (decide (Ride.user_id r = userId)); [|done]. simpl.
  destruct (decide (rideId = k)) as [<-|Hne].
  - by rewrite lookup_insert_eq, Hr.
  - by rewrite lookup_insert_ne.
Qed.

(** C5 (the status and the seats of a completed or canceled ride are never
    written again) fails on [cancel_ride]: the owner of a completed ride who
    cancels it is answered 200 and the status goes from ['completed'] to
    ['canceled']. The two other writers of a ride, [book_ride] and the
    sweeper, leave completed and canceled rides alone
    ([book_keeps_terminal], [sweeper_keeps_terminal]), and [cancel_ride]
    leaves the seats alone ([cancel_ride_keeps_seats]). *)
Theorem cancel_completed_ride :
  ledger ended "69d206c2-1" = Some (3, Ride.completed)
  ∧ (run (cancel_ride "69d206c2-1" "driver-1") ended).2 = RideCanceled
  ∧ ledger (run (cancel_ride "69d206c2-1" "driver-1") ended).1 "69d206c2-1"
    = Some (3, Ride.canceled).
Proof. vm_compute. auto. Qed.

(** ** Ride requests *)

(** C9 as stated fails: the driver accepts a pending request and then
    rejects it; both calls are answered 200 and the status is written
    twice, the second time on a request that was already accepted. *)
Lemma request_resolved_twice :
  let s1 := (run (accepted "q-1" "driver-1") requested).1 in
  let s2 := (run (rejected "q-1" "driver-1") s1).1 in
  request_status requested "q-1" = Some RideRequest.pending
  ∧ request_status s1 "q-1" = Some RideRequest.accepted
  ∧ (run (rejected "q-1" "driver-1") s1).2
    = mkResponse 200 (message "Ride request rejected")
  ∧ request_status s2 "q-1" = Some RideRequest.rejected.
Proof. vm_compute. auto. Qed.

(** C9, as the handlers have it. A call of [accept] or [reject] by the
    driver the request is addressed to is answered 200 and writes
    ['accepted'], respectively ['rejected'], into the status of the request
    whatever the status was, pending or not; nothing else in the store
    changes. A call by anyone else is answered 403 and changes nothing. *)
Theorem request_resolution s request_id driver_id q :
  ride_requests s !! request_id = Some q →
  (RideRequest.driver_id q = driver_id →
   run (accepted request_id driver_id) s
   = (mkStore (rides s) (bookings s)
        (<[request_id :=
             RideRequest.mk (RideRequest.ride_id q)
               (RideRequest.passenger_id q) (RideRequest.driver_id q)
               (RideRequest.vehicle_id q) RideRequest.accepted]>
           (ride_requests s)),
      mkResponse 200 (message "Ride request accepted"))
   ∧ run (rejected request_id driver_id) s
     = (mkStore (rides s) (bookings s)
          (<[request_id :=
               RideRequest.mk (RideRequest.ride_id q)
                 (RideRequest.passenger_id q) (RideRequest.driver_id q)
                 (RideRequest.vehicle_id q) RideRequest.rejected]>
             (ride_requests s)),
        mkResponse 200 (message "Ride request rejected")))
  ∧ (RideRequest.driver_id q ≠ driver_id →
     run (accepted request_id driver_id) s
     = (s, mkResponse 403 (error "Unauthorized action"))
     ∧ run (rejected request_id driver_id) s
       = (s, mkResponse 403 (error "Unauthorized action"))).
Proof.
  intros Hq. rewrite run_accepted, run_rejected, Hq. split.
  - intros Hd. by rewrite !decide_True.
  - intros Hd. by rewrite !decide_False.
Qed.

Lemma request_resolution_witness :
  let s1 := (run (accepted "q-1" "driver-1") requested).1 in
  let q := RideRequest.mk "69d206c2-1" "ann" "driver-1" "car-1"
                          RideRequest.accepted in
  (ride_requests s1 !! "q-1" = Some q
   ∧ RideRequest.driver_id q = "driver-1"
   ∧ RideRequest.driver_id q ≠ "ann")
  ∧ run (rejected "q-1" "driver-1") s1
    = (mkStore (rides s1) (bookings s1)
         (<["q-1" :=
              RideRequest.mk "69d206c2-1" "ann" "driver-1" "car-1"
                             RideRequest.rejected]> (ride_requests s1)),
       mkResponse 200 (message "Ride request rejected"))
  ∧ run (rejected "q-1" "ann") s1
    = (s1, mkResponse 403 (error "Unauthorized action")).
Proof.
  intros s1 q.
  assert (ride_requests s1 !! "q-1" = Some q) as Hq
    by (vm_compute; reflexivity).
  split; [by split_and!|].
  split.
  - exact (proj2 (proj1 (request_resolution s1 "q-1" "driver-1" q Hq)
                        eq_refl)).
  - apply (proj2 (request_resolution s1 "q-1" "ann" q Hq)). done.
Defined.

(** ** The lifecycle sweeper *)

Lemma due_spec now r :
  due now r = bool_decide (past now r ∧ ¬ terminal (Ride.status r)).
Proof.
  unfold due, before, past. rewrite includes_terminal; simpl.
  apply eq_true_iff_eq. rewrite bool_decide_eq_true.
  rewrite andb_true_iff, orb_true_iff, andb_true_iff, negb_true_iff.
  rewrite bool_decide_eq_false, !Z.ltb_lt, Z.eqb_eq. done.
Qed.

Lemma mark_completed_twice now r :
  mark_completed now (mark_completed now r) = mark_completed now r.
Proof.
  unfold mark_completed. destruct (due now r) eqn:Hdue; [|by rewrite Hdue].
  unfold due; simpl. by rewrite andb_false_r.
Qed.

(** C10. One run of the sweeper at the time [now] sets to ['completed'] the
    status of exactly the rides whose date and time lie strictly before
    [now] and that are neither completed nor canceled; it writes nothing
    else: the other columns of those rides, the other rides, the bookings
    and the ride requests stay as they were and no ride appears or
    disappears. A second run at the same time changes nothing. *)
Theorem sweeper_completes_due_rides now s :
  (∀ rideId r,
     rides s !! rideId = Some r →
     rides (sweeper now s) !! rideId
     = Some (if decide (past now r ∧ ¬ terminal (Ride.status r))
             then Ride.mk (Ride.user_id r) (Ride.origin r)
                          (Ride.destination r) (Ride.date r) (Ride.time r)
                          (Ride.seats_available r) Ride.completed
             else r))
  ∧ (∀ rideId, rides s !! rideId = None →
               rides (sweeper now s) !! rideId = None)
  ∧ bookings (sweeper now s) = bookings s
  ∧ ride_requests (sweeper now s) = ride_requests s
  ∧ sweeper now (sweeper now s) = sweeper now s.
Proof.
  split_and!; [| |done|done|].
  - intros rideId r Hr. unfold sweeper; simpl. rewrite lookup_fmap, Hr; simpl.
    unfold mark_completed. rewrite due_spec.
    by destruct (decide (past now r ∧ ¬ terminal (Ride.status r)));
      [rewrite bool_decide_eq_true_2|rewrite bool_decide_eq_false_2].
  - intros rideId Hr. unfold sweeper; simpl. by rewrite lookup_fmap, Hr.
  - unfold sweeper; simpl. f_equal. rewrite <- map_fmap_compose.
    apply map_fmap_ext. intros k r _. apply mark_completed_twice.
Qed.

Lemma sweeper_completes_due_rides_witness :
  let r := Ride.mk "driver-1" "New York" "Boston" 20250310 1400 2 Ride.open in
  let now : DateTime := (20250310, 1401) in
  (rides once_booked !! "69d206c2-1" = Some r
   ∧ rides once_booked !! "no-such-ride" = None)
  ∧ rides (sweeper now once_booked) !! "69d206c2-1"
    = Some (Ride.mk "driver-1" "New York" "Boston" 20250310 1400 2
                    Ride.completed)
  ∧ rides (sweeper now once_booked) !! "no-such-ride" = None
  ∧ sweeper now (sweeper now once_booked) = sweeper now once_booked.
Proof.
  intros r now.
  assert (rides once_booked !! "69d206c2-1" = Some r) as Hr
    by (vm_compute; reflexivity).
  assert (rides once_booked !! "no-such-ride" = None) as Hnone
    by (vm_compute; reflexivity).
  destruct (sweeper_completes_due_rides now once_booked)
    as (Hdue & Hmissing & _ & _ & Htwice).
  split; [done|]. split_and!.
  - rewrite (Hdue _ _ Hr). reflexivity.
  - exact (Hmissing _ Hnone).
  - exact Htwice.
Defined.

(** ** No overbooking *)

(** The invariant [accounted] of a ride, call by call. *)

Lemma booked_seats_app k bs1 bs2 :
  booked_seats k (bs1 ++ bs2) = booked_seats k bs1 + booked_seats k bs2.
Proof.
  unfold booked_seats. rewrite filter_app, fmap_app.
  induction (Booking.seats <$> filter (holds k) bs1) as [|n l IH]; simpl; lia.
Qed.

Lemma booked_seats_pending k uuid userId rideId seats :
  booked_seats k [Booking.mk uuid userId rideId seats Booking.pending]
  = if decide (rideId = k) then seats else 0.
Proof.
  unfold booked_seats. rewrite filter_cons, filter_nil. unfold holds; simpl.
  destruct (decide (rideId = k)) as [->|Hne].
  - rewrite decide_True by done. simpl. lia.
  - rewrite decide_False by (by intros [? _]). done.
Qed.

Section accounting.

(** A ride [k] and the capacity it was offered with. *)
Variables (capacity : Z) (k : string).

Lemma book_ride_accounted rideId userId seats uuid s :
  accounted capacity k s →
  accounted capacity k (run (book_ride rideId userId seats uuid) s).1.
Proof.
  intros (r & Hk & Hpos & Hsum).
  book_ride_cases s rideId Hr; try by exists r.
  unfold accounted, booked; simpl.
  rewrite booked_seats_app, booked_seats_pending.
  destruct (decide (rideId = k)) as [->|Hne].
  - rewrite Hk in Hr. injection Hr as <-.
    rewrite lookup_insert_eq. eexists. split; [done|]. simpl. lia.
  - rewrite lookup_insert_ne by done. exists r. split; [done|]. lia.
Qed.

Lemma cancel_ride_accounted rideId userId s :
  accounted capacity k s →
  accounted capacity k (run (cancel_ride rideId userId) s).1.
Proof.
  intros (r & Hk & Hpos & Hsum). rewrite run_cancel_ride.
  destruct (rides s !! rideId) as [r'|] eqn:Hr; [|by exists r].
  destruct (decide (Ride.user_id r' = userId)); [|by exists r].
  unfold accounted; simpl.
  destruct (decide (rideId = k)) as [->|Hne].
  - rewrite Hk in Hr. injection Hr as <-.
    rewrite lookup_insert_eq. by eexists.
  - rewrite lookup_insert_ne by done. by exists r.
Qed.

Lemma sweeper_accounted now s :
  accounted capacity k s → accounted capacity k (sweeper now s).
Proof.
  intros (r & Hk & Hpos & Hsum). exists (mark_completed now r).
  unfold sweeper; simpl. rewrite lookup_fmap, Hk. split; [done|].
  unfold mark_completed. by destruct (due now r).
Qed.

Lemma call_accounted c s :
  accounted capacity k s → accounted capacity k (call c s).
Proof.
  destruct c as [rideId userId seats uuid|rideId userId|v r d p uuid
                |request_id driver_id|request_id driver_id|now]; simpl.
  - apply book_ride_accounted.
  - apply cancel_ride_accounted.
  - unfold accounted.
    by destruct (run_ride_req s v r d p uuid) as [-> ->].
  - rewrite run_accepted.
    destruct (ride_requests s !! request_id) as [q|]; [|done].
    by destruct (decide (RideRequest.driver_id q = driver_id)).
  - rewrite run_rejected.
    destruct (ride_requests s !! request_id) as [q|]; [|done].
    by destruct (decide (RideRequest.driver_id q = driver_id)).
  - apply sweeper_accounted.
Qed.

Lemma calls_accounted cs s :
  accounted capacity k s → accounted capacity k (calls cs s).
Proof.
  revert s. induction cs as [|c cs IH]; intros s Hs; [done|].
  simpl. by apply IH, call_accounted.
Qed.

(** In particular [seats_available] never goes below 0. *)
Lemma calls_seats_available cs s :
  accounted capacity k s →
  ∃ r, rides (calls cs s) !! k = Some r ∧ 0 ≤ Ride.seats_available r.
Proof.
  intros Hs. destruct (calls_accounted cs s Hs) as (r & Hr & Hpos & _).
  by exists r.
Qed.

End accounting.





Example all_seats_taken :
  let s := calls [BookRide "69d206c2-1" "ann" 2 "b-1";
                  BookRide "69d206c2-1" "bob" 2 "b-2";
                  BookRide "69d206c2-1" "cy" (-1) "b-3";
                  BookRide "69d206c2-1" "dee" 2 "b-4"] sample in
  booked_seats "69d206c2-1" (bookings s) = 3
  ∧ ledger s "69d206c2-1" = Some (0, Ride.full).
Proof. vm_compute. auto. Qed.

(** * Further properties of the handlers *)

(** ** [book_ride]: refusals *)

(** X1. A call of [book_ride] that is not answered 201 leaves the store as
    it was: every refusal is free of effects. *)
Theorem book_ride_refusal_changes_nothing s rideId userId seats uuid :
  (run (book_ride rideId userId seats uuid) s).2 ≠ Booked →
  (run (book_ride rideId userId seats uuid) s).1 = s.
Proof.
  by book_ride_cases s rideId Hr.
Qed.

Lemma book_ride_refusal_changes_nothing_witness :
  (run (book_ride "69d206c2-1" "ann" 5 "b-1") sample).2 ≠ Booked
  ∧ (run (book_ride "69d206c2-1" "ann" 5 "b-1") sample).1 = sample.
Proof.
  assert ((run (book_ride "69d206c2-1" "ann" 5 "b-1") sample).2 ≠ Booked)
    as Hrefused by (vm_compute; discriminate).
  split; [exact Hrefused|].
  exact (book_ride_refusal_changes_nothing sample "69d206c2-1" "ann" 5 "b-1"
           Hrefused).
Defined.

(** X2. With a ride id and a non-zero seat count given: a ride that does
    not exist is answered 404 "Ride not found."; on a ride that exists and
    is neither completed nor canceled, a request for more seats than are
    available is answered 400 "Not enough seats available.", whether or not
    the caller holds a confirmed booking. Neither changes the store. *)
Theorem book_ride_not_found_or_no_seats s rideId userId seats uuid :
  rideId ≠ "" → seats ≠ 0 →
  (rides s !! rideId = None →
   run (book_ride rideId userId seats uuid) s = (s, NotFound))
  ∧ (∀ r, rides s !! rideId = Some r →
          ¬ terminal (Ride.status r) →
          Ride.seats_available r < seats →
          run (book_ride rideId userId seats uuid) s = (s, CapacityExceeded)).
Proof.
  intros Hid Hseats. split.
  - intros Hr. rewrite run_book_ride, Hr.
    by rewrite decide_False by (by intros [?|?]).
  - intros r Hr Hterm Hlt. rewrite run_book_ride, Hr.
    rewrite decide_False by (by intros [?|?]).
    rewrite decide_False by done. by rewrite decide_True.
Qed.

Lemma book_ride_not_found_or_no_seats_witness :
  (rides sample !! "no-such-ride" = None
   ∧ run (book_ride "no-such-ride" "ann" 1 "b-1") sample = (sample, NotFound))
  ∧ (rides confirmed_then_open !! "69d206c2-1"
     = Some (Ride.mk "driver-1" "New York" "Boston" 20250310 1400 1 Ride.open)
     ∧ holds_confirmed confirmed_then_open "ann" "69d206c2-1"
     ∧ run (book_ride "69d206c2-1" "ann" 2 "b-2") confirmed_then_open
       = (confirmed_then_open, CapacityExceeded)).
Proof.
  assert (rides sample !! "no-such-ride" = None) as Hnone
    by (vm_compute; reflexivity).
  assert (rides confirmed_then_open !! "69d206c2-1"
          = Some (Ride.mk "driver-1" "New York" "Boston" 20250310 1400 1
                          Ride.open)) as Hr by (vm_compute; reflexivity).
  split; [split; [done|]|split; [done|split]].
  - apply (book_ride_not_found_or_no_seats sample "no-such-ride" "ann" 1 "b-1");
      [done|lia|done].
  - apply (bool_decide_unpack _). vm_compute. exact I.
  - apply (book_ride_not_found_or_no_seats confirmed_then_open "69d206c2-1"
             "ann" 2 "b-2") with (r := Ride.mk "driver-1" "New York" "Boston"
                                          20250310 1400 1 Ride.open);
      [done|lia|done|by intros [?|?]|simpl; lia].
Defined.

(** ** What the calls do to a ride *)

Lemma call_ride_step c s k r :
  rides s !! k = Some r →
  ∃ r', rides (call c s) !! k = Some r' ∧ ride_step r r'.
Proof.
  intros Hk.
  destruct c as [rideId userId seats uuid|rideId userId|v q d p uuid
                |request_id driver_id|request_id driver_id|now]; simpl.
  - book_ride_cases s rideId Hr;
      try (exists r; split; [done|by apply ride_kept]).
    unfold booked; simpl. destruct (decide (rideId = k)) as [->|Hne].
    + rewrite Hk in Hr. injection Hr as <-.
      rewrite lookup_insert_eq. eexists. split; [done|].
      apply (ride_booked _ _ seats); [done|tauto|lia|].
      destruct (Z.eqb_spec (Ride.seats_available r - seats) 0);
        [by rewrite decide_True|by rewrite decide_False].
    + rewrite lookup_insert_ne by done. exists r.
      split; [done|by apply ride_kept].
  - rewrite run_cancel_ride.
    destruct (rides s !! rideId) as [r0|] eqn:Hr;
      [|exists r; split; [done|by apply ride_kept]].
    destruct (decide (Ride.user_id r0 = userId));
      [|exists r; split; [done|by apply ride_kept]].
    simpl. destruct (decide (rideId = k)) as [->|Hne].
    + rewrite Hk in Hr. injection Hr as <-.
      rewrite lookup_insert_eq. eexists. split; [done|].
      by apply ride_canceled.
    + rewrite lookup_insert_ne by done. exists r.
      split; [done|by apply ride_kept].
  - destruct (run_ride_req s v q d p uuid) as [-> _].
    exists r. split; [done|by apply ride_kept].
  - rewrite run_accepted.
    destruct (ride_requests s !! request_id) as [q|];
      [destruct (decide (RideRequest.driver_id q = driver_id))|];
      exists r; (split; [done|by apply ride_kept]).
  - rewrite run_rejected.
    destruct (ride_requests s !! request_id) as [q|];
      [destruct (decide (RideRequest.driver_id q = driver_id))|];
      exists r; (split; [done|by apply ride_kept]).
  - rewrite lookup_fmap, Hk; simpl. eexists. split; [done|].
    unfold mark_completed. rewrite due_spec. case_bool_decide as Hdue.
    + apply ride_completed; [by destruct Hdue|done].
    + by apply ride_kept.
Qed.

Lemma call_ride_absent c s k :
  rides s !! k = None → rides (call c s) !! k = None.
Proof.
  intros Hk.
  destruct c as [rideId userId seats uuid|rideId userId|v q d p uuid
                |request_id driver_id|request_id driver_id|now]; simpl.
  - book_ride_cases s rideId Hr; try done.
    unfold booked; simpl. rewrite lookup_insert_ne; [done|].
    intros ->. by rewrite Hk in Hr.
  - rewrite run_cancel_ride.
    destruct (rides s !! rideId) as [r0|] eqn:Hr; [|done].
    destruct (decide (Ride.user_id r0 = userId)); [|done].
    simpl. rewrite lookup_insert_ne; [done|].
    intros ->. by rewrite Hk in Hr.
  - by destruct (run_ride_req s v q d p uuid) as [-> _].
  - rewrite run_accepted.
    destruct (ride_requests s !! request_id) as [q|]; [|done].
    by destruct (decide (RideRequest.driver_id q = driver_id)).
  - rewrite run_rejected.
    destruct (ride_requests s !! request_id) as [q|]; [|done].
    by destruct (decide (RideRequest.driver_id q = driver_id)).
  - by rewrite lookup_fmap, Hk.
Qed.

Lemma calls_ride_steps cs s k r :
  rides s !! k = Some r →
  ∃ r', rides (calls cs s) !! k = Some r' ∧ rtc ride_step r r'.
Proof.
  revert s r. induction cs as [|c cs IH]; intros s r Hk; simpl.
  - by exists r.
  - destruct (call_ride_step c s k r Hk) as (r1 & Hk1 & Hstep).
    destruct (IH _ _ Hk1) as (r' & Hk' & Hsteps).
    exists r'. split; [done|]. by eapply rtc_l.
Qed.

Lemma calls_ride_absent cs s k :
  rides s !! k = None → rides (calls cs s) !! k = None.
Proof.
  revert s. induction cs as [|c cs IH]; intros s Hk; [done|].
  simpl. by apply IH, call_ride_absent.
Qed.

(** Every ride found after the calls was there before them. *)
Lemma calls_ride_origin cs s k r' :
  rides (calls cs s) !! k = Some r' →
  ∃ r, rides s !! k = Some r ∧ rtc ride_step r r'.
Proof.
  intros Hk'. destruct (rides s !! k) as [r|] eqn:Hk.
  - destruct (calls_ride_steps cs s k r Hk) as (r1 & Hk1 & Hsteps).
    exists r. split; [done|]. rewrite Hk' in Hk1. by injection Hk1 as ->.
  - by rewrite (calls_ride_absent cs s k Hk) in Hk'.
Qed.

(** A property of rides kept by each step is kept by the calls. *)
Lemma ride_steps_keep (P : Ride.t → Prop) :
  (∀ r r', P r → ride_step r r' → P r') →
  ∀ r r', P r → rtc ride_step r r' → P r'.
Proof.
  intros Hstep r r' HP Hsteps. induction Hsteps as [|r r1 r' H1 _ IH]; [done|].
  apply IH. by eapply Hstep.
Qed.




(** ** Requests in flight *)

(** A request in flight that runs alone does what the handler does. *)
Lemma finish_book_ride_in_flight s rideId userId seats uuid :
  finish (book_ride_in_flight rideId userId seats uuid) s
  = run (book_ride rideId userId seats uuid) s.
Proof.
  unfold book_ride_in_flight, book_ride, book_ride_writing, awaiting, run,
    respond, mbind, mret, Handler_bind, Handler_ret.
  destruct (!rideId || !seats); [done|]. simpl.
  destruct (rides s !! rideId) as [r|]; [|done]. simpl.
  destruct (includes _ _); [done|].
  destruct (_ <? _); [done|]. simpl.
  destruct (0 <? length _)%nat; [done|]. simpl.
  destruct (alter _ rideId (rides s) !! rideId) as [r'|]; [|done]. simpl.
  by destruct (_ =? 0).
Qed.






(** ** Invariants of the seat ledger *)








Lemma ride_step_not_reopened r r' :
  Ride.status r ≠ Ride.open → ride_step r r' → Ride.status r' ≠ Ride.open.
Proof.
  intros Hst [->| seats _ _ _ ->| ->| _ ->]; simpl; [done| |done|done].
  by case_decide.
Qed.

Lemma ride_step_no_seats r r' :
  (Ride.seats_available r = 0 → Ride.status r ≠ Ride.open) →
  ride_step r r' →
  Ride.seats_available r' = 0 → Ride.status r' ≠ Ride.open.
Proof.
  intros Hinv [->| seats _ _ _ ->| ->| _ ->]; simpl; [done| |done|done].
  intros Hzero. by rewrite decide_True.
Qed.

Lemma ride_step_identity r r' :
  ride_step r r' →
  Ride.user_id r' = Ride.user_id r
  ∧ Ride.origin r' = Ride.origin r
  ∧ Ride.destination r' = Ride.destination r
  ∧ Ride.date r' = Ride.date r
  ∧ Ride.time r' = Ride.time r.
Proof. by intros [->| seats _ _ _ ->| ->| _ ->]. Qed.

Lemma ride_steps_identity r r' :
  rtc ride_step r r' →
  Ride.user_id r' = Ride.user_id r
  ∧ Ride.origin r' = Ride.origin r
  ∧ Ride.destination r' = Ride.destination r
  ∧ Ride.date r' = Ride.date r
  ∧ Ride.time r' = Ride.time r.
Proof.
  intros Hsteps.
  apply (ride_steps_keep
           (λ r', Ride.user_id r' = Ride.user_id r
                  ∧ Ride.origin r' = Ride.origin r
                  ∧ Ride.destination r' = Ride.destination r
                  ∧ Ride.date r' = Ride.date r
                  ∧ Ride.time r' = Ride.time r)) with (r := r);
    [|done|done].
  intros r1 r2 (? & ? & ? & ? & ?) Hstep.
  destruct (ride_step_identity r1 r2 Hstep) as (? & ? & ? & ? & ?).
  split_and!; congruence.
Qed.

(** X6. No call puts a ride back to ['open']: a ride that is full,
    completed or canceled is not open after any sequence of calls, also
    when a booking of a negative seat count has given it seats again. And
    while every ride without seats is not open, this stays so. *)
Theorem ride_never_reopened s cs :
  (∀ k r, rides s !! k = Some r →
          Ride.status r ≠ Ride.open →
          ∃ r', rides (calls cs s) !! k = Some r'
                ∧ Ride.status r' ≠ Ride.open)
  ∧ ((∀ k r, rides s !! k = Some r →
             Ride.seats_available r = 0 → Ride.status r ≠ Ride.open) →
     ∀ k r, rides (calls cs s) !! k = Some r →
            Ride.seats_available r = 0 → Ride.status r ≠ Ride.open).
Proof.
  split.
  - intros k r Hk Hst.
    destruct (calls_ride_steps cs s k r Hk) as (r' & Hk' & Hsteps).
    exists r'. split; [done|].
    by apply (ride_steps_keep (λ r, Ride.status r ≠ Ride.open)
                ride_step_not_reopened r r').
  - intros Hs k r' Hk'.
    destruct (calls_ride_origin cs s k r' Hk') as (r & Hk & Hsteps).
    apply (ride_steps_keep
             (λ r, Ride.seats_available r = 0 → Ride.status r ≠ Ride.open)
             ride_step_no_seats r r'); [by eapply Hs|done].
Qed.

(** The sample ride booked out, then given a seat back by a booking of -1. *)
Lemma ride_never_reopened_witness :
  let s := (run (book_ride "69d206c2-1" "ann" 3 "b-1") sample).1 in
  let cs := [BookRide "69d206c2-1" "cy" (-1) "b-2"] in
  (rides s !! "69d206c2-1"
   = Some (Ride.mk "driver-1" "New York" "Boston" 20250310 1400 0 Ride.full)
   ∧ Ride.full ≠ Ride.open)
  ∧ rides (calls cs s) !! "69d206c2-1"
    = Some (Ride.mk "driver-1" "New York" "Boston" 20250310 1400 1 Ride.full)
  ∧ ∃ r', rides (calls cs s) !! "69d206c2-1" = Some r'
          ∧ Ride.status r' ≠ Ride.open.
Proof.
  intros s cs.
  assert (rides s !! "69d206c2-1"
          = Some (Ride.mk "driver-1" "New York" "Boston" 20250310 1400 0
                          Ride.full)) as Hk by (vm_compute; reflexivity).
  split; [done|]. split; [vm_compute; reflexivity|].
  apply (proj1 (ride_never_reopened s cs) _ _ Hk). done.
Defined.

(** X7. No call adds or removes a ride, and none writes the driver, the
    origin, the destination, the date or the time of a ride. *)
Theorem ride_identity_kept s cs k :
  match rides s !! k with
  | Some r =>
    ∃ r', rides (calls cs s) !! k = Some r'
          ∧ Ride.user_id r' = Ride.user_id r
          ∧ Ride.origin r' = Ride.origin r
          ∧ Ride.destination r' = Ride.destination r
          ∧ Ride.date r' = Ride.date r
          ∧ Ride.time r' = Ride.time r
  | None => rides (calls cs s) !! k = None
  end.
Proof.
  destruct (rides s !! k) as [r|] eqn:Hk; [|by apply calls_ride_absent].
  destruct (calls_ride_steps cs s k r Hk) as (r' & Hk' & Hsteps).
  exists r'. split; [done|]. by apply ride_steps_identity.
Qed.

(** ** The bookings *)

Lemma call_bookings c s :
  ∃ added, bookings (call c s) = bookings s ++ added
           ∧ Forall (λ b, Booking.status b = Booking.pending) added.
Proof.
  destruct c as [rideId userId seats uuid|rideId userId|v q d p uuid
                |request_id driver_id|request_id driver_id|now]; simpl.
  - book_ride_cases s rideId Hr;
      try (exists []; split; [by rewrite app_nil_r|done]).
    eexists. split; [done|]. by apply Forall_singleton.
  - rewrite run_cancel_ride. exists []. rewrite app_nil_r. split; [|done].
    destruct (rides s !! rideId) as [r0|]; [|done].
    by destruct (decide (Ride.user_id r0 = userId)).
  - destruct (run_ride_req s v q d p uuid) as [_ ->].
    exists []. by rewrite app_nil_r.
  - rewrite run_accepted. exists []. rewrite app_nil_r. split; [|done].
    destruct (ride_requests s !! request_id) as [q|]; [|done].
    by destruct (decide (RideRequest.driver_id q = driver_id)).
  - rewrite run_rejected. exists []. rewrite app_nil_r. split; [|done].
    destruct (ride_requests s !! request_id) as [q|]; [|done].
    by destruct (decide (RideRequest.driver_id q = driver_id)).
  - exists []. by rewrite app_nil_r.
Qed.

Lemma calls_bookings cs s :
  ∃ added, bookings (calls cs s) = bookings s ++ added
           ∧ Forall (λ b, Booking.status b = Booking.pending) added.
Proof.
  revert s. induction cs as [|c cs IH]; intros s; simpl.
  - exists []. by rewrite app_nil_r.
  - destruct (call_bookings c s) as (added1 & Hb1 & Hp1).
    destruct (IH (call c s)) as (added2 & Hb2 & Hp2).
    exists (added1 ++ added2). rewrite Hb2, Hb1, <- app_assoc.
    split; [done|]. by apply Forall_app.
Qed.

(** X8. The bookings only grow: after any sequence of calls the bookings
    that were there come first, unchanged, and every booking that was not
    there is pending. No call removes a booking, changes its seats or its
    status. *)
Theorem bookings_only_grow s cs :
  bookings s `prefix_of` bookings (calls cs s)
  ∧ ∀ b, b ∈ bookings (calls cs s) →
         b ∈ bookings s ∨ Booking.status b = Booking.pending.
Proof.
  destruct (calls_bookings cs s) as (added & Hb & Hp). rewrite Hb. split.
  - by apply prefix_app_r.
  - intros b [Hin|Hin]%elem_of_app; [by left|right].
    by apply (proj1 (Forall_forall _ _) Hp).
Qed.

(** X9. No call confirms a booking. From a store without confirmed
    bookings every sequence of calls leads to a store without confirmed
    bookings, where [book_ride] never answers DuplicateBooking. *)
Theorem duplicate_booking_out_of_reach s cs :
  none_confirmed s →
  none_confirmed (calls cs s)
  ∧ ∀ rideId userId seats uuid,
      (run (book_ride rideId userId seats uuid) (calls cs s)).2
      ≠ DuplicateBooking.
Proof.
  intros Hs.
  assert (none_confirmed (calls cs s)) as Hcs.
  { destruct (calls_bookings cs s) as (added & Hb & Hp).
    intros b. rewrite Hb. intros [Hin|Hin]%elem_of_app; [by apply Hs|].
    by rewrite (proj1 (Forall_forall _ _) Hp b Hin). }
  split; [done|]. intros rideId userId seats uuid.
  book_ride_cases (calls cs s) rideId Hr; simpl;
    try done; try apply InvalidState_not_DuplicateBooking.
  intros _.
  assert (holds_confirmed (calls cs s) userId rideId) as (b & Hb & Hc)
    by by apply holds_confirmed_filter.
  destruct Hc as (_ & _ & Hst). by apply (Hcs b Hb).
Qed.

Lemma duplicate_booking_out_of_reach_witness :
  none_confirmed sample
  ∧ none_confirmed (calls sample_calls sample)
  ∧ (run (book_ride "69d206c2-1" "ann" 1 "b-9") (calls sample_calls sample)).2
    ≠ DuplicateBooking.
Proof.
  assert (none_confirmed sample) as Hs
    by (intros b Hb; by apply not_elem_of_nil in Hb).
  split; [exact Hs|].
  destruct (duplicate_booking_out_of_reach sample sample_calls Hs)
    as [Hcs Hbook].
  split; [exact Hcs|apply Hbook].
Defined.

(** ** How [cancel_ride] and the sweeper compose *)

(** X10. Canceling twice is canceling once: the second call of
    [cancel_ride] by the same caller gets the answer of the first and leaves
    the store the first call left. *)
Theorem cancel_ride_twice s rideId userId :
  run (cancel_ride rideId userId) (run (cancel_ride rideId userId) s).1
  = run (cancel_ride rideId userId) s.
Proof.
  rewrite (run_cancel_ride s).
  destruct (rides s !! rideId) as [r|] eqn:Hr; simpl;
    [|by rewrite run_cancel_ride, Hr].
  destruct (decide (Ride.user_id r = userId)) as [Hu|Hu]; simpl;
    [|by rewrite run_cancel_ride, Hr, decide_False].
  rewrite run_cancel_ride; simpl. rewrite lookup_insert_eq.
  rewrite decide_True by done. by rewrite insert_insert_eq.
Qed.

Lemma before_not_after a now1 now2 :
  before a now1 = true → not_after now1 now2 → before a now2 = true.
Proof.
  unfold before, not_after.
  rewrite !orb_true_iff, !andb_true_iff, !Z.ltb_lt, !Z.eqb_eq. lia.
Qed.

Lemma due_not_after now1 now2 r :
  due now1 r = true → not_after now1 now2 → due now2 r = true.
Proof.
  unfold due. rewrite !andb_true_iff. intros [Hb Hst] Hle.
  split; [by eapply before_not_after|done].
Qed.

Lemma due_completed now r : due now (Ride.set_status Ride.completed r) = false.
Proof. unfold due; simpl. by rewrite andb_false_r. Qed.

Lemma due_canceled now r : due now (Ride.set_status Ride.canceled r) = false.
Proof. unfold due; simpl. by rewrite andb_false_r. Qed.

(** X11. Runs of the sweeper at two times amount to one run at the later
    time, in either order: a run is absorbed by any run that is not
    earlier. *)
Theorem sweeper_later_run_absorbs now1 now2 s :
  not_after now1 now2 →
  sweeper now2 (sweeper now1 s) = sweeper now2 s
  ∧ sweeper now1 (sweeper now2 s) = sweeper now2 s.
Proof.
  intros Hle. unfold sweeper; simpl. split; f_equal;
    rewrite <- map_fmap_compose; apply map_fmap_ext; intros k r _; simpl;
    unfold mark_completed.
  - destruct (due now1 r) eqn:H1; [|done].
    by rewrite due_completed, (due_not_after now1 now2 r H1 Hle).
  - destruct (due now2 r) eqn:H2; [by rewrite due_completed|].
    destruct (due now1 r) eqn:H1; [|done].
    by rewrite (due_not_after now1 now2 r H1 Hle) in H2.
Qed.

Lemma sweeper_later_run_absorbs_witness :
  not_after (20250309, 0) (20250311, 0)
  ∧ sweeper (20250311, 0) (sweeper (20250309, 0) once_booked)
    = sweeper (20250311, 0) once_booked
  ∧ sweeper (20250309, 0) (sweeper (20250311, 0) once_booked)
    = sweeper (20250311, 0) once_booked.
Proof.
  assert (not_after (20250309, 0) (20250311, 0)) as Hle by (left; simpl; lia).
  split; [exact Hle|].
  exact (sweeper_later_run_absorbs (20250309, 0) (20250311, 0) once_booked Hle).
Defined.

(** X12. [cancel_ride] and the sweeper commute: canceling after a run of
    the sweeper gives the answer and the store of canceling before it. *)
Theorem cancel_ride_sweeper_commute now s rideId userId :
  run (cancel_ride rideId userId) (sweeper now s)
  = (sweeper now (run (cancel_ride rideId userId) s).1,
     (run (cancel_ride rideId userId) s).2).
Proof.
  rewrite !run_cancel_ride. unfold sweeper at 1; simpl. rewrite lookup_fmap.
  destruct (rides s !! rideId) as [r|] eqn:Hr; simpl; [|done].
  assert (Ride.user_id (mark_completed now r) = Ride.user_id r) as ->
    by (unfold mark_completed; by destruct (due now r)).
  destruct (decide (Ride.user_id r = userId)); simpl; [|done].
  unfold sweeper; simpl. f_equal. f_equal. rewrite fmap_insert. f_equal.
  unfold mark_completed at 2. rewrite due_canceled.
  unfold mark_completed. by destruct (due now r).
Qed.

(** ** The listings of rides *)

Lemma search_elem origin destination date s k r :
  (k, r) ∈ search origin destination date s
  ↔ rides s !! k = Some r
    ∧ Ride.origin r = origin ∧ Ride.destination r = destination
    ∧ Ride.date r = date.
Proof.
  unfold search. rewrite list_elem_of_filter, elem_of_map_to_list. simpl.
  tauto.
Qed.

Lemma available_elem s k r :
  (k, r) ∈ available s ↔ rides s !! k = Some r ∧ 0 < Ride.seats_available r.
Proof.
  unfold available. rewrite list_elem_of_filter, elem_of_map_to_list. simpl.
  tauto.
Qed.

(** X13. A ride offered in the name of a driver, under an id new to
    [rides], is found by a search for its origin, destination and date, as
    an open ride with the seats it was offered with, whatever their number;
    it is listed as available exactly when that number is positive; and
    every search finds what it found before. Offered in the name of a user
    who is not in [drivers], the ride is refused by the store: the answer is
    500 and the store is as it was. *)
Theorem offered_ride_is_found
    drivers s user origin destination date time seats_available uuid :
  let offer :=
    run (offerride drivers user origin destination date time seats_available
                   uuid) s in
  let r := Ride.mk user origin destination date time seats_available
                   Ride.open in
  (user ∈ drivers →
   rides s !! uuid = None →
   offer.2 = mkResponse 200 (message "Ride offered successfully")
   ∧ (uuid, r) ∈ search origin destination date offer.1
   ∧ ((uuid, r) ∈ available offer.1 ↔ 0 < seats_available)
   ∧ ∀ o d t row, row ∈ search o d t s → row ∈ search o d t offer.1)
  ∧ (user ∉ drivers →
     offer = (s, mkResponse 500 (error no_referenced_row))).
Proof.
  intros offer r. unfold offer. rewrite run_offerride. split.
  - intros Hdriver Hfresh. rewrite decide_True by done. simpl.
    split_and!; [done| | |].
    + apply search_elem. simpl. by rewrite lookup_insert_eq.
    + rewrite available_elem. simpl. rewrite lookup_insert_eq. simpl. tauto.
    + intros o d t [k r0]. rewrite !search_elem. simpl.
      intros (Hk & Ho & Hd & Ht). split; [|done].
      rewrite lookup_insert_ne; [done|]. intros <-. by rewrite Hfresh in Hk.
  - intros Hother. by rewrite decide_False.
Qed.

Lemma offered_ride_is_found_witness :
  let r := Ride.mk "driver-2" "Boston" "Albany" 20250312 900 0 Ride.open in
  let s' := (run (offerride sample_drivers "driver-2" "Boston" "Albany"
                            20250312 900 0 "7a1f03d4-2") sample).1 in
  ("driver-2" ∈ sample_drivers ∧ rides sample !! "7a1f03d4-2" = None
   ∧ "ann" ∉ sample_drivers)
  ∧ ("7a1f03d4-2", r) ∈ search "Boston" "Albany" 20250312 s'
  ∧ (("7a1f03d4-2", r) ∉ available s')
  ∧ run (offerride sample_drivers "ann" "Boston" "Albany" 20250312 900 2
                   "7a1f03d4-2") sample
    = (sample, mkResponse 500 (error no_referenced_row)).
Proof.
  intros r s'.
  assert ("driver-2" ∈ sample_drivers) as Hdriver
    by (apply (bool_decide_unpack _); vm_compute; exact I).
  assert ("ann" ∉ sample_drivers) as Hother
    by (apply (bool_decide_unpack _); vm_compute; exact I).
  assert (rides sample !! "7a1f03d4-2" = None) as Hfresh
    by (vm_compute; reflexivity).
  destruct (offered_ride_is_found sample_drivers sample "driver-2" "Boston"
              "Albany" 20250312 900 0 "7a1f03d4-2") as [Hoffered _].
  destruct (Hoffered Hdriver Hfresh) as (_ & Hfound & Havail & _).
  destruct (offered_ride_is_found sample_drivers sample "ann" "Boston"
              "Albany" 20250312 900 2 "7a1f03d4-2") as [_ Hrefused].
  split; [done|]. split; [exact Hfound|]. split; [|exact (Hrefused Hother)].
  intros Hin. apply Havail in Hin. lia.
Defined.

(** X14. [search] looks at neither the status nor the seats of a ride:
    after any sequence of calls it finds the rides, by id, that it found
    before, be they full, completed or canceled by then. *)
Theorem search_finds_ride_for_ever origin destination date s cs k :
  (∃ r, (k, r) ∈ search origin destination date (calls cs s))
  ↔ (∃ r, (k, r) ∈ search origin destination date s).
Proof.
  split.
  - intros (r' & (Hk' & Ho & Hd & Ht)%search_elem).
    destruct (calls_ride_origin cs s k r' Hk') as (r & Hk & Hsteps).
    exists r. apply search_elem. split; [done|].
    destruct (ride_steps_identity r r' Hsteps) as (_ & ? & ? & ? & _).
    split_and!; congruence.
  - intros (r & (Hk & Ho & Hd & Ht)%search_elem).
    destruct (calls_ride_steps cs s k r Hk) as (r' & Hk' & Hsteps).
    exists r'. apply search_elem. split; [done|].
    destruct (ride_steps_identity r r' Hsteps) as (_ & ? & ? & ? & _).
    split_and!; congruence.
Qed.

(** X15. After a booking that went through, the ride is still listed as
    available exactly when the booking took fewer seats than there were; a
    booking of all the seats takes the ride off the list. *)
Theorem available_after_booking s rideId userId seats uuid r :
  rides s !! rideId = Some r →
  rideId ≠ "" → seats ≠ 0 →
  ¬ terminal (Ride.status r) →
  seats ≤ Ride.seats_available r →
  ¬ holds_confirmed s userId rideId →
  (∃ r', (rideId, r')
         ∈ available (run (book_ride rideId userId seats uuid) s).1)
  ↔ seats < Ride.seats_available r.
Proof.
  intros Hr Hid Hseats Hterm Hcap Hconf. rewrite run_book_ride, Hr.
  rewrite decide_False by (by intros [?|?]).
  rewrite decide_False by done. rewrite decide_False by lia.
  rewrite decide_True by by apply no_confirmed_filter.
  unfold booked; simpl. split.
  - intros (r' & (Hk & Hpos)%available_elem). simpl in Hk.
    rewrite lookup_insert_eq in Hk. injection Hk as <-. simpl in Hpos. lia.
  - intros Hlt. eexists. apply available_elem. simpl.
    rewrite lookup_insert_eq. split; [done|]. simpl. lia.
Qed.

Lemma available_after_booking_witness :
  let r := Ride.mk "driver-1" "New York" "Boston" 20250310 1400 3 Ride.open in
  (rides sample !! "69d206c2-1" = Some r
   ∧ ¬ terminal (Ride.status r)
   ∧ 3 ≤ Ride.seats_available r
   ∧ ¬ holds_confirmed sample "ann" "69d206c2-1")
  ∧ ¬ ∃ r', ("69d206c2-1", r')
            ∈ available (run (book_ride "69d206c2-1" "ann" 3 "b-1") sample).1.
Proof.
  intros r.
  assert (rides sample !! "69d206c2-1" = Some r) as Hr
    by (vm_compute; reflexivity).
  assert (¬ terminal (Ride.status r)) as Hterm by (by intros [?|?]).
  assert (¬ holds_confirmed sample "ann" "69d206c2-1") as Hconf
    by (apply (bool_decide_unpack _); vm_compute; exact I).
  split; [split_and!; done || (simpl; lia)|].
  intros Hlisted.
  apply (available_after_booking sample "69d206c2-1" "ann" 3 "b-1" r Hr)
    in Hlisted; [simpl in Hlisted; lia|done|lia|done|simpl; lia|done].
Defined.



(** ** The booking history *)

(** The history reads the bookings and, of the rides, the journeys only. *)
Lemma history_journey user s1 s2 :
  bookings s1 = bookings s2 →
  (∀ k, journey <$> rides s1 !! k = journey <$> rides s2 !! k) →
  history user s1 = history user s2.
Proof.
  intros Hb Hj. unfold history, bookings_join_rides. rewrite Hb. clear Hb.
  induction (bookings s2) as [|b bs IH]; [done|].
  rewrite !bind_cons, !filter_app, !fmap_app, IH. f_equal.
  specialize (Hj (Booking.ride_id b)).
  destruct (rides s1 !! Booking.ride_id b) as [r1|],
           (rides s2 !! Booking.ride_id b) as [r2|]; simpl in *; try done.
  injection Hj as Ho Hd Ht. rewrite !filter_cons; simpl.
  case_decide; simpl; [|done]. by rewrite Ho, Hd, Ht.
Qed.

Lemma history_snoc user s s' b r' :
  bookings s' = bookings s ++ [b] →
  (∀ k, journey <$> rides s' !! k = journey <$> rides s !! k) →
  rides s' !! Booking.ride_id b = Some r' →
  history user s'
  = history user s
    ++ (if decide (Booking.user_id b = user)
        then [History.mk (Booking.id b) (Ride.origin r') (Ride.destination r')
                         (Ride.date r') (Booking.status b)]
        else []).
Proof.
  intros Hb Hj Hr'.
  rewrite <- (history_journey user (mkStore (rides s') (bookings s)
                                            (ride_requests s)) s eq_refl Hj).
  unfold history, bookings_join_rides; simpl. rewrite Hb.
  rewrite bind_app, filter_app, fmap_app. f_equal.
  rewrite bind_singleton, Hr'; simpl. rewrite filter_cons, filter_nil; simpl.
  by case_decide.
Qed.

Lemma call_journey c s k :
  journey <$> rides (call c s) !! k = journey <$> rides s !! k.
Proof.
  destruct (rides s !! k) as [r|] eqn:Hk.
  - destruct (call_ride_step c s k r Hk) as (r' & -> & Hstep). simpl.
    destruct (ride_step_identity r r' Hstep) as (_ & Ho & Hd & Ht & _).
    unfold journey. by rewrite Ho, Hd, Ht.
  - by rewrite (call_ride_absent c s k Hk).
Qed.

(** X17. A booking that went through shows in the history of the caller,
    and only there: the history of the caller gains one row, with the id of
    the booking, the origin, destination and date of the ride and the status
    ['pending']; the history of every other user is what it was. *)
Theorem history_after_booking s rideId userId seats uuid r :
  rides s !! rideId = Some r →
  rideId ≠ "" → seats ≠ 0 →
  ¬ terminal (Ride.status r) →
  seats ≤ Ride.seats_available r →
  ¬ holds_confirmed s userId rideId →
  let s' := (run (book_ride rideId userId seats uuid) s).1 in
  history userId s'
  ≡ₚ History.mk uuid (Ride.origin r) (Ride.destination r) (Ride.date r)
                Booking.pending
     :: history userId s
  ∧ ∀ user, user ≠ userId → history user s' = history user s.
Proof.
  intros Hr Hid Hseats Hterm Hcap Hconf s'.
  assert (∀ user,
    history user s'
    = history user s
      ++ (if decide (userId = user)
          then [History.mk uuid (Ride.origin r) (Ride.destination r)
                           (Ride.date r) Booking.pending]
          else [])) as Hhistory.
  { intros user.
    assert (s' = booked rideId userId seats uuid r s) as Hs'.
    { unfold s'. rewrite run_book_ride, Hr.
      rewrite decide_False by (by intros [?|?]).
      rewrite decide_False by done. rewrite decide_False by lia.
      by rewrite decide_True by by apply no_confirmed_filter. }
    apply (history_snoc user s s'
             (Booking.mk uuid userId rideId seats Booking.pending)
             (Ride.mk (Ride.user_id r) (Ride.origin r) (Ride.destination r)
                (Ride.date r) (Ride.time r) (Ride.seats_available r - seats)
                (if Ride.seats_available r - seats =? 0
                 then Ride.full else Ride.status r))).
    - by rewrite Hs'.
    - intros k. apply (call_journey (BookRide rideId userId seats uuid) s k).
    - rewrite Hs'. unfold booked; simpl. by rewrite lookup_insert_eq. }
  split.
  - rewrite Hhistory, decide_True by done.
    by rewrite <- Permutation_cons_append.
  - intros user Hne. rewrite Hhistory, decide_False by done.
    by rewrite app_nil_r.
Qed.

Lemma history_after_booking_witness :
  let r := Ride.mk "driver-1" "New York" "Boston" 20250310 1400 3 Ride.open in
  let s' := (run (book_ride "69d206c2-1" "ann" 2 "b-1") sample).1 in
  (rides sample !! "69d206c2-1" = Some r
   ∧ ¬ terminal (Ride.status r)
   ∧ 2 ≤ Ride.seats_available r
   ∧ ¬ holds_confirmed sample "ann" "69d206c2-1")
  ∧ history "ann" s'
    ≡ₚ History.mk "b-1" "New York" "Boston" 20250310 Booking.pending
       :: history "ann" sample
  ∧ history "bob" s' = history "bob" sample.
Proof.
  intros r s'.
  assert (rides sample !! "69d206c2-1" = Some r) as Hr
    by (vm_compute; reflexivity).
  assert (¬ terminal (Ride.status r)) as Hterm by (by intros [?|?]).
  assert (¬ holds_confirmed sample "ann" "69d206c2-1") as Hconf
    by (apply (bool_decide_unpack _); vm_compute; exact I).
  split; [split_and!; done || (simpl; lia)|].
  destruct (history_after_booking sample "69d206c2-1" "ann" 2 "b-1" r Hr)
    as [Hown Hother]; [done|lia|done|simpl; lia|done|].
  split; [exact Hown|by apply Hother].
Defined.

(** X18. The history of a user changes by the bookings of that user only:
    after any sequence of calls none of which is a call of [book_ride] by the
    user, be they bookings of others, cancellations of rides or runs of the
    sweeper, the history of the user is what it was. *)
Theorem history_kept_by_other_calls user s cs :
  Forall (λ c, ¬ booking_by user c) cs →
  history user (calls cs s) = history user s.
Proof.
  revert s. induction cs as [|c cs IH]; intros s Hcs; [done|].
  apply Forall_cons in Hcs as [Hc Hcs]. simpl. rewrite (IH _ Hcs).
  destruct (call_bookings c s) as (added & Hb & _).
  assert (added = [] ∨ ∃ b, added = [b] ∧ Booking.user_id b ≠ user) as Hadded.
  { destruct c as [rideId userId seats uuid|rideId userId|v q d p uuid
                  |request_id driver_id|request_id driver_id|now];
      simpl in *.
    - revert Hb. book_ride_cases s rideId Hr; simpl;
        try (intros Hb; left; apply (inj (app (bookings s)));
             by rewrite app_nil_r).
      intros Hb%(inj (app (bookings s))). right. eexists. by split.
    - left. apply (inj (app (bookings s))). rewrite <- Hb, app_nil_r.
      rewrite run_cancel_ride. destruct (rides s !! rideId) as [r0|]; [|done].
      by destruct (decide (Ride.user_id r0 = userId)).
    - left. apply (inj (app (bookings s))). rewrite <- Hb, app_nil_r.
      by destruct (run_ride_req s v q d p uuid) as [_ ->].
    - left. apply (inj (app (bookings s))). rewrite <- Hb, app_nil_r.
      rewrite run_accepted.
      destruct (ride_requests s !! request_id) as [q|]; [|done].
      by destruct (decide (RideRequest.driver_id q = driver_id)).
    - left. apply (inj (app (bookings s))). rewrite <- Hb, app_nil_r.
      rewrite run_rejected.
      destruct (ride_requests s !! request_id) as [q|]; [|done].
      by destruct (decide (RideRequest.driver_id q = driver_id)).
    - left. apply (inj (app (bookings s))). by rewrite <- Hb, app_nil_r. }
  destruct Hadded as [->|(b & -> & Hne)].
  - apply history_journey; [by rewrite Hb, app_nil_r|apply call_journey].
  - destruct (rides (call c s) !! Booking.ride_id b) as [r'|] eqn:Hr'.
    + rewrite (history_snoc user s (call c s) b r' Hb (call_journey c s) Hr').
      by rewrite decide_False, app_nil_r.
    + unfold history, bookings_join_rides. rewrite Hb.
      rewrite bind_app, filter_app, fmap_app, bind_singleton, Hr'; simpl.
      rewrite app_nil_r.
      change (history user (mkStore (rides (call c s)) (bookings s)
                                    (ride_requests s)) = history user s).
      apply history_journey; [done|apply call_journey].
Qed.

Lemma history_kept_by_other_calls_witness :
  Forall (λ c, ¬ booking_by "bob" c) sample_calls
  ∧ history "bob" (calls sample_calls sample) = history "bob" sample.
Proof.
  assert (Forall (λ c, ¬ booking_by "bob" c) sample_calls) as Hcs.
  { apply (bool_decide_unpack _). vm_compute. exact I. }
  split; [exact Hcs|].
  exact (history_kept_by_other_calls "bob" sample sample_calls Hcs).
Defined.

(** ** Ride requests *)

Lemma get_ride_req_elem user s k q :
  (k, q) ∈ get_ride_req user s
  ↔ ride_requests s !! k = Some q ∧ RideRequest.driver_id q = user.
Proof.
  unfold get_ride_req. rewrite list_elem_of_filter, elem_of_map_to_list.
  simpl. tauto.
Qed.

Lemma run_ride_req_cases s vehicle ride_id driver_id passenger_id uuid :
  run (ride_req vehicle ride_id driver_id passenger_id uuid) s
  = if decide (ride_id = "" ∨ driver_id = "")
    then (s, mkResponse 400 (error "Ride ID and Driver ID are required"))
    else if decide (is_Some (rides s !! ride_id))
    then (mkStore (rides s) (bookings s)
            (<[uuid := RideRequest.mk ride_id passenger_id driver_id vehicle
                                      RideRequest.pending]>
               (ride_requests s)),
          RequestSent)
    else (s, mkResponse 500 (error no_referenced_row)).
Proof.
  unfold ride_req, run, mbind, Handler_bind, insert_ride_request.
  unfold truthy, string_truthy.
  rewrite !bool_decide_not, !negb_involutive, <- bool_decide_or.
  destruct (decide (ride_id = "" ∨ driver_id = "")) as [Hmissing|Hgiven];
    [by rewrite bool_decide_eq_true_2|].
  rewrite bool_decide_eq_false_2 by done. simpl.
  by destruct (decide (is_Some (rides s !! ride_id))).
Qed.

(** X19. A ride request with a ride id and a driver id, for a ride that
    exists, is stored as pending under its new id; it is then listed for the
    driver it names, who can accept it; rides and bookings are not touched.
    For a ride that does not exist the store refuses the request: the answer
    is 500 and nothing changes. A request without a ride id or without a
    driver id is answered 400 and changes nothing. *)
Theorem ride_req_sent s vehicle ride_id driver_id passenger_id uuid :
  ride_id ≠ "" → driver_id ≠ "" →
  let sent := run (ride_req vehicle ride_id driver_id passenger_id uuid) s in
  (is_Some (rides s !! ride_id) →
   ride_requests s !! uuid = None →
   sent.2 = RequestSent
   ∧ (uuid, RideRequest.mk ride_id passenger_id driver_id vehicle
                           RideRequest.pending)
     ∈ get_ride_req driver_id sent.1
   ∧ (∀ row, row ∈ get_ride_req driver_id s →
             row ∈ get_ride_req driver_id sent.1)
   ∧ (run (accepted uuid driver_id) sent.1).2 = RequestAccepted
   ∧ rides sent.1 = rides s ∧ bookings sent.1 = bookings s)
  ∧ (rides s !! ride_id = None →
     sent = (s, mkResponse 500 (error no_referenced_row)))
  ∧ (∀ v p u,
       run (ride_req v "" driver_id p u) s
       = (s, mkResponse 400 (error "Ride ID and Driver ID are required"))
       ∧ run (ride_req v ride_id "" p u) s
         = (s, mkResponse 400 (error "Ride ID and Driver ID are required"))).
Proof.
  intros Hr Hd sent. unfold sent. rewrite run_ride_req_cases.
  rewrite decide_False by (by intros [?|?]). split_and!.
  - intros Hride Hfresh. rewrite decide_True by done.
    simpl. split_and!; try done.
    + apply get_ride_req_elem. simpl. by rewrite lookup_insert_eq.
    + intros [k q]. rewrite !get_ride_req_elem. simpl.
      intros [Hk Hq]. split; [|done]. rewrite lookup_insert_ne; [done|].
      intros <-. by rewrite Hfresh in Hk.
    + rewrite run_accepted. simpl. rewrite lookup_insert_eq. simpl.
      by rewrite decide_True.
  - intros Hnone. rewrite decide_False; [done|].
    rewrite Hnone. by intros [? ?].
  - intros v p u. rewrite !run_ride_req_cases.
    by rewrite !decide_True by auto.
Qed.

Lemma ride_req_sent_witness :
  let sent := run (ride_req "car-1" "69d206c2-1" "driver-1" "ann" "q-1")
                  sample in
  (is_Some (rides sample !! "69d206c2-1")
   ∧ ride_requests sample !! "q-1" = None
   ∧ rides sample !! "no-such-ride" = None)
  ∧ ("q-1", RideRequest.mk "69d206c2-1" "ann" "driver-1" "car-1"
                           RideRequest.pending)
    ∈ get_ride_req "driver-1" sent.1
  ∧ (run (accepted "q-1" "driver-1") sent.1).2 = RequestAccepted
  ∧ run (ride_req "car-1" "no-such-ride" "driver-1" "ann" "q-1") sample
    = (sample, mkResponse 500 (error no_referenced_row)).
Proof.
  intros sent.
  assert (is_Some (rides sample !! "69d206c2-1")) as Hride
    by (apply (bool_decide_unpack _); vm_compute; exact I).
  assert (ride_requests sample !! "q-1" = None) as Hfresh
    by (vm_compute; reflexivity).
  assert (rides sample !! "no-such-ride" = None) as Hnone
    by (vm_compute; reflexivity).
  split; [done|].
  destruct (ride_req_sent sample "car-1" "69d206c2-1" "driver-1" "ann" "q-1")
    as (Hsent & _ & _); [done|done|].
  destruct (Hsent Hride Hfresh) as (_ & Hlisted & _ & Haccepted & _).
  destruct (ride_req_sent sample "car-1" "no-such-ride" "driver-1" "ann"
                          "q-1") as (_ & Hrefused & _); [done|done|].
  split; [exact Hlisted|]. split; [exact Haccepted|exact (Hrefused Hnone)].
Defined.

(** X20. A driver can accept and reject exactly the requests listed for
    him: [accepted] and [rejected] are answered 200 when the request is in
    the list [GET /ride-req/:user] gives for the caller; otherwise, also for
    an id that does not exist, they are answered 403 and change nothing. *)
Theorem request_listed_iff_resolvable s request_id driver_id :
  ((∃ q, (request_id, q) ∈ get_ride_req driver_id s) →
   (run (accepted request_id driver_id) s).2 = RequestAccepted
   ∧ (run (rejected request_id driver_id) s).2 = RequestRejected)
  ∧ ((¬ ∃ q, (request_id, q) ∈ get_ride_req driver_id s) →
     run (accepted request_id driver_id) s = (s, Unauthorized)
     ∧ run (rejected request_id driver_id) s = (s, Unauthorized)).
Proof.
  rewrite run_accepted, run_rejected. split.
  - intros (q & [Hq Hd]%get_ride_req_elem). rewrite Hq.
    by rewrite !decide_True.
  - intros Hnot. destruct (ride_requests s !! request_id) as [q|] eqn:Hq;
      [|done].
    rewrite !decide_False; [done| |];
      intros Hd; apply Hnot; exists q; by apply get_ride_req_elem.
Qed.

Lemma request_listed_iff_resolvable_witness :
  (∃ q, ("q-1", q) ∈ get_ride_req "driver-1" requested)
  ∧ (run (accepted "q-1" "driver-1") requested).2 = RequestAccepted
  ∧ (¬ ∃ q, ("q-7", q) ∈ get_ride_req "driver-1" requested)
  ∧ run (rejected "q-7" "driver-1") requested = (requested, Unauthorized).
Proof.
  assert (∃ q, ("q-1", q) ∈ get_ride_req "driver-1" requested) as Hlisted.
  { eexists. apply get_ride_req_elem. split; [vm_compute; reflexivity|done]. }
  assert (¬ ∃ q, ("q-7", q) ∈ get_ride_req "driver-1" requested) as Hnot.
  { intros (q & [Hq _]%get_ride_req_elem). vm_compute in Hq. discriminate. }
  destruct (request_listed_iff_resolvable requested "q-1" "driver-1")
    as [Hyes _].
  destruct (request_listed_iff_resolvable requested "q-7" "driver-1")
    as [_ Hno].
  split; [exact Hlisted|]. split; [exact (proj1 (Hyes Hlisted))|].
  split; [exact Hnot|exact (proj2 (Hno Hnot))].
Defined.

Lemma run_after_resolved st request_id driver_id q s :
  RideRequest.driver_id q = driver_id →
  run (accepted request_id driver_id) (resolved st request_id q s)
  = (resolved RideRequest.accepted request_id q s, RequestAccepted)
  ∧ run (rejected request_id driver_id) (resolved st request_id q s)
    = (resolved RideRequest.rejected request_id q s, RequestRejected).
Proof.
  intros Hd. rewrite run_accepted, run_rejected. unfold resolved; simpl.
  rewrite lookup_insert_eq; simpl. rewrite !decide_True by done.
  by rewrite !insert_insert_eq.
Qed.

(** X21. Of the calls of [accepted] and [rejected] on a request the last
    one decides: a call after another one gives the answer and the store it
    would have given alone; in particular accepting twice is accepting
    once. *)
Theorem request_last_call_decides s request_id driver_id :
  run (rejected request_id driver_id)
      (run (accepted request_id driver_id) s).1
  = run (rejected request_id driver_id) s
  ∧ run (accepted request_id driver_id)
        (run (rejected request_id driver_id) s).1
    = run (accepted request_id driver_id) s
  ∧ run (accepted request_id driver_id)
        (run (accepted request_id driver_id) s).1
    = run (accepted request_id driver_id) s
  ∧ run (rejected request_id driver_id)
        (run (rejected request_id driver_id) s).1
    = run (rejected request_id driver_id) s.
Proof.
  rewrite (run_accepted s), (run_rejected s).
  destruct (ride_requests s !! request_id) as [q|] eqn:Hq; simpl;
    [|by rewrite run_accepted, run_rejected, Hq].
  destruct (decide (RideRequest.driver_id q = driver_id)) as [Hd|Hd]; simpl;
    [|by rewrite run_accepted, run_rejected, Hq, !decide_False].
  destruct (run_after_resolved RideRequest.accepted request_id driver_id q s
              Hd) as [Haa Har].
  destruct (run_after_resolved RideRequest.rejected request_id driver_id q s
              Hd) as [Hra Hrr].
  by rewrite Haa, Har, Hra, Hrr.
Qed.

Lemma call_request c s :
  (request_call c →
   rides (call c s) = rides s ∧ bookings (call c s) = bookings s)
  ∧ (¬ request_call c → ride_requests (call c s) = ride_requests s).
Proof.
  destruct c as [rideId userId seats uuid|rideId userId|v q d p uuid
                |request_id driver_id|request_id driver_id|now]; simpl;
    (split; [intros Hc|intros Hc]); try done.
  - by book_ride_cases s rideId Hr.
  - rewrite run_cancel_ride. destruct (rides s !! rideId) as [r0|]; [|done].
    by destruct (decide (Ride.user_id r0 = userId)).
  - apply run_ride_req.
  - rewrite run_accepted.
    destruct (ride_requests s !! request_id) as [q|]; [|done].
    by destruct (decide (RideRequest.driver_id q = driver_id)).
  - rewrite run_rejected.
    destruct (ride_requests s !! request_id) as [q|]; [|done].
    by destruct (decide (RideRequest.driver_id q = driver_id)).
Qed.

(** X22. Ride requests and the seat ledger do not meet: sending, accepting
    and rejecting requests never writes a ride or a booking, so an accepted
    request holds no seat; and bookings, cancellations and the sweeper never
    write a ride request. *)
Theorem requests_and_ledger_apart s cs :
  (Forall request_call cs →
   rides (calls cs s) = rides s ∧ bookings (calls cs s) = bookings s)
  ∧ (Forall (λ c, ¬ request_call c) cs →
     ride_requests (calls cs s) = ride_requests s).
Proof.
  split; revert s; induction cs as [|c cs IH]; intros s Hcs; try done;
    apply Forall_cons in Hcs as [Hc Hcs]; simpl.
  - destruct (IH (call c s) Hcs) as [-> ->].
    by apply (proj1 (call_request c s)).
  - rewrite (IH (call c s) Hcs). by apply (proj2 (call_request c s)).
Qed.

Lemma requests_and_ledger_apart_witness :
  let cs := [RideReq "car-1" "69d206c2-1" "driver-1" "ann" "q-1";
             Accepted "q-1" "driver-1"] in
  Forall request_call cs
  ∧ rides (calls cs sample) = rides sample
  ∧ bookings (calls cs sample) = bookings sample.
Proof.
  intros cs.
  assert (Forall request_call cs) as Hcs
    by (apply (bool_decide_unpack _); vm_compute; exact I).
  split; [exact Hcs|].
  exact (proj1 (requests_and_ledger_apart sample cs) Hcs).
Defined.

(** ** Agreements *)

Lemma get_agreement_elem user (agreements : gmap string Agreement.t) k a :
  (k, a) ∈ get_agreement user agreements
  ↔ agreements !! k = Some a ∧ Agreement.party user a.
Proof.
  unfold get_agreement. rewrite list_elem_of_filter, elem_of_map_to_list.
  simpl. tauto.
Qed.

Lemma agreements_accept_cases agreement_id user_id
    (agreements : gmap string Agreement.t) :
  agreements_accept agreement_id user_id agreements
  = match agreements !! agreement_id with
    | Some a =>
      if decide (Agreement.party user_id a)
      then (<[agreement_id := Agreement.set_status Agreement.accepted a]>
              agreements,
            AgreementAccepted)
      else (agreements, AgreementRefused)
    | None => (agreements, AgreementRefused)
    end.
Proof.
  unfold agreements_accept.
  destruct (agreements !! agreement_id) as [a|] eqn:Ha; simpl; [|done].
  rewrite filter_cons, filter_nil.
  destruct (decide (Agreement.party user_id a)); simpl; [|done].
  by erewrite alter_present.
Qed.

(** X23. A user can accept exactly the agreements listed for them, those
    that name them as passenger or as driver: for an agreement in the list
    [GET /agreement/:user] gives, [agreements_accept] is answered 200 and
    writes ['accepted'] into its status, whatever the status was, and
    nothing else; for any other id, one that does not exist included, it is
    answered 403 and changes nothing. *)
Theorem agreement_listed_iff_acceptable
    (agreements : gmap string Agreement.t) agreement_id user_id :
  (∀ a, (agreement_id, a) ∈ get_agreement user_id agreements →
        agreements_accept agreement_id user_id agreements
        = (<[agreement_id :=
               Agreement.mk (Agreement.passenger_id a) (Agreement.driver_id a)
                            (Agreement.ride_id a) Agreement.accepted]>
             agreements,
           AgreementAccepted))
  ∧ ((¬ ∃ a, (agreement_id, a) ∈ get_agreement user_id agreements) →
     agreements_accept agreement_id user_id agreements
     = (agreements, AgreementRefused)).
Proof.
  rewrite agreements_accept_cases. split.
  - intros a [Ha Hparty]%get_agreement_elem. rewrite Ha.
    by rewrite decide_True.
  - intros Hnot. destruct (agreements !! agreement_id) as [a|] eqn:Ha; [|done].
    rewrite decide_False; [done|].
    intros Hparty. apply Hnot. exists a. by apply get_agreement_elem.
Qed.

Lemma agreement_listed_iff_acceptable_witness :
  let a := Agreement.mk "ann" "driver-1" "69d206c2-1" Agreement.rejected in
  ("a-1", a) ∈ get_agreement "driver-1" sample_agreements
  ∧ agreements_accept "a-1" "driver-1" sample_agreements
    = (<["a-1" := Agreement.mk "ann" "driver-1" "69d206c2-1"
                               Agreement.accepted]> sample_agreements,
       AgreementAccepted)
  ∧ (¬ ∃ a, ("a-2", a) ∈ get_agreement "driver-1" sample_agreements)
  ∧ agreements_accept "a-2" "driver-1" sample_agreements
    = (sample_agreements, AgreementRefused).
Proof.
  intros a.
  assert (("a-1", a) ∈ get_agreement "driver-1" sample_agreements) as Hlisted.
  { apply get_agreement_elem. split; [vm_compute; reflexivity|by right]. }
  assert (¬ ∃ a, ("a-2", a) ∈ get_agreement "driver-1" sample_agreements)
    as Hnot.
  { intros (a' & [Ha Hparty]%get_agreement_elem).
    vm_compute in Ha. injection Ha as <-. by destruct Hparty. }
  destruct (agreement_listed_iff_acceptable sample_agreements "a-1" "driver-1")
    as [Hyes _].
  destruct (agreement_listed_iff_acceptable sample_agreements "a-2" "driver-1")
    as [_ Hno].
  split; [exact Hlisted|]. split; [exact (Hyes a Hlisted)|].
  split; [exact Hnot|exact (Hno Hnot)].
Defined.

(** X24. The store keeps one status for an agreement, not who accepted:
    once one party has accepted, the acceptance by the other party (or a
    second one by the same) is answered 200 like the first and leaves the
    agreements as the first acceptance left them. *)
Theorem agreement_second_acceptance
    (agreements : gmap string Agreement.t) agreement_id first second a :
  agreements !! agreement_id = Some a →
  Agreement.party first a →
  Agreement.party second a →
  agreements_accept agreement_id second
    (agreements_accept agreement_id first agreements).1
  = agreements_accept agreement_id first agreements.
Proof.
  intros Ha Hfirst Hsecond.
  rewrite (agreements_accept_cases _ first), Ha.
  rewrite decide_True by done. simpl.
  rewrite agreements_accept_cases, lookup_insert_eq.
  rewrite decide_True by done. by rewrite insert_insert_eq.
Qed.

Lemma agreement_second_acceptance_witness :
  let a := Agreement.mk "bob" "driver-2" "7a1f03d4-2" Agreement.pending in
  (sample_agreements !! "a-2" = Some a
   ∧ Agreement.party "bob" a ∧ Agreement.party "driver-2" a)
  ∧ agreements_accept "a-2" "driver-2"
      (agreements_accept "a-2" "bob" sample_agreements).1
    = agreements_accept "a-2" "bob" sample_agreements.
Proof.
  intros a.
  assert (sample_agreements !! "a-2" = Some a) as Ha
    by (vm_compute; reflexivity).
  assert (Agreement.party "bob" a) as Hbob by (by left).
  assert (Agreement.party "driver-2" a) as Hdriver by (by right).
  split; [done|].
  exact (agreement_second_acceptance sample_agreements "a-2" "bob" "driver-2"
           a Ha Hbob Hdriver).
Defined.

(** ** The authentication middleware *)

Lemma spaceless_cons c w :
  spaceless (String c w) ↔ c ≠ space ∧ spaceless w.
Proof. unfold spaceless. simpl. apply (Forall_cons (λ c, c ≠ space)). Qed.

Lemma split_word_space word rest :
  spaceless word → split (word +:+ String space rest) = word :: split rest.
Proof.
  induction word as [|c word IH]; simpl.
  - done.
  - intros [Hc Hword]%spaceless_cons. rewrite decide_False by done.
    by rewrite (IH Hword).
Qed.

Lemma split_word word : spaceless word → split word = [word].
Proof.
  induction word as [|c word IH]; simpl; [done|].
  intros [Hc Hword]%spaceless_cons. rewrite decide_False by done.
  by rewrite (IH Hword).
Qed.

Lemma split_second_word scheme token rest :
  spaceless scheme → spaceless token →
  split (scheme +:+ " " +:+ token) !! 1%nat = Some token
  ∧ split (scheme +:+ " " +:+ token +:+ " " +:+ rest) !! 1%nat = Some token.
Proof.
  intros Hscheme Htoken. split.
  - change (" " +:+ token) with (String space token).
    by rewrite (split_word_space _ _ Hscheme), (split_word _ Htoken).
  - change (" " +:+ token +:+ " " +:+ rest)
      with (String space (token +:+ String space rest)).
    by rewrite (split_word_space _ _ Hscheme), (split_word_space _ _ Htoken).
Qed.

Section authentication_properties.

Variable verify : string → option User.t.

(** X25. The middleware takes the second word of the [Authorization]
    header as the token and never looks at the first: for a header made of
    any word, a space and a non-empty word, followed or not by a space and
    more, the request goes on as the user the second word verifies to, or is
    answered 403 "Invalid token" when it does not verify. *)
Theorem authenticateToken_second_word scheme token rest :
  spaceless scheme → spaceless token → token ≠ "" →
  let outcome :=
    match verify token with
    | Some user => inr user
    | None => inl InvalidToken
    end in
  authenticateToken verify (Some (scheme +:+ " " +:+ token)) = outcome
  ∧ authenticateToken verify
      (Some (scheme +:+ " " +:+ token +:+ " " +:+ rest)) = outcome.
Proof.
  intros Hscheme Htoken Hne outcome. unfold authenticateToken; simpl.
  destruct (split_second_word scheme token rest Hscheme Htoken) as [-> ->].
  unfold truthy, string_truthy. by rewrite bool_decide_eq_true_2.
Qed.

(** X26. A request without [Authorization] header, with a header of one
    word, or with a header whose first word is followed by two spaces, is
    answered 403 "Access denied" whatever the verifier accepts, and the
    handler behind the middleware does not run: the store is as it was. *)
Theorem unauthenticated_request_denied
    authorization (handler : User.t → Handler Response) s :
  authorization = None
  ∨ (∃ word, authorization = Some word ∧ spaceless word)
  ∨ (∃ word rest, authorization = Some (word +:+ "  " +:+ rest)
                  ∧ spaceless word) →
  authenticateToken verify authorization = inl AccessDenied
  ∧ run (route verify authorization handler) s = (s, AccessDenied).
Proof.
  intros Hdenied.
  assert (authenticateToken verify authorization = inl AccessDenied) as Hauth.
  { unfold authenticateToken.
    destruct Hdenied as [->|[(word & -> & Hword)|(word & rest & -> & Hword)]];
      simpl; [done| |].
    - by rewrite (split_word _ Hword).
    - change ("  " +:+ rest) with (String space (String space rest)).
      by rewrite (split_word_space _ _ Hword). }
  split; [done|]. unfold route, run. by rewrite Hauth.
Qed.

(** X27. A ride is offered in the name of the [:user] of the path, not of
    the caller, and it is that [user] the store looks up in [drivers]. When
    [user] is a driver, the ride belongs to [user] after
    [POST /offerride/:user] by any authenticated caller, so the same
    caller's [POST /cancel-ride] of it is answered 200 when [user] is the
    caller's own id and 403, leaving the ride open, when it is not. When
    [user] is not a driver, the answer is 500 and nothing is stored, whoever
    the caller is. *)
Theorem offered_ride_belongs_to_path_user
    drivers authorization caller user origin destination date time
    seats_available uuid s :
  authenticateToken verify authorization = inr caller →
  let offer :=
    run (post_offerride verify drivers authorization user origin destination
                        date time seats_available uuid) s in
  (user ∈ drivers →
   rides offer.1 !! uuid
   = Some (Ride.mk user origin destination date time seats_available
                   Ride.open)
   ∧ (User.id caller = user →
      (run (post_cancel_ride verify authorization uuid) offer.1).2
      = RideCanceled)
   ∧ (User.id caller ≠ user →
      run (post_cancel_ride verify authorization uuid) offer.1
      = (offer.1, Forbidden)))
  ∧ (user ∉ drivers →
     offer = (s, mkResponse 500 (error no_referenced_row))).
Proof.
  intros Hauth offer.
  assert (offer = run (offerride drivers user origin destination date time
                                 seats_available uuid) s) as ->.
  { unfold offer, post_offerride, route. by rewrite Hauth. }
  rewrite run_offerride. split.
  - intros Hdriver. rewrite decide_True by done. simpl.
    rewrite lookup_insert_eq. split; [done|].
    unfold post_cancel_ride, route. rewrite Hauth, run_cancel_ride. simpl.
    rewrite lookup_insert_eq. simpl.
    split; intros Hcaller; [by rewrite decide_True|by rewrite decide_False].
  - intros Hother. by rewrite decide_False.
Qed.

End authentication_properties.

Lemma authenticateToken_second_word_witness :
  (spaceless "Basic" ∧ spaceless "tok-ann" ∧ "tok-ann" ≠ "")
  ∧ authenticateToken sample_verify (Some "Basic tok-ann")
    = inr (User.mk "ann" "ann@example.com" "passenger")
  ∧ authenticateToken sample_verify (Some "Basic tok-ann and more")
    = inr (User.mk "ann" "ann@example.com" "passenger").
Proof.
  assert (spaceless "Basic") as Hscheme
    by (apply (bool_decide_unpack _); vm_compute; exact I).
  assert (spaceless "tok-ann") as Htoken
    by (apply (bool_decide_unpack _); vm_compute; exact I).
  assert ("tok-ann" ≠ "") as Hne by done.
  split; [done|].
  exact (authenticateToken_second_word sample_verify "Basic" "tok-ann"
           "and more" Hscheme Htoken Hne).
Defined.

Lemma unauthenticated_request_denied_witness :
  spaceless "Bearer"
  ∧ run (post_book_ride sample_verify (Some "Bearer  tok-ann") "69d206c2-1" 1
                        "b-1") sample
    = (sample, AccessDenied)
  ∧ run (post_book_ride sample_verify (Some "Bearer tok-ann") "69d206c2-1" 1
                        "b-1") sample
    = run (book_ride "69d206c2-1" "ann" 1 "b-1") sample.
Proof.
  assert (spaceless "Bearer") as Hword
    by (apply (bool_decide_unpack _); vm_compute; exact I).
  split; [exact Hword|]. split; [|vm_compute; reflexivity].
  apply (unauthenticated_request_denied sample_verify).
  right. right. exists "Bearer", "tok-ann". by split.
Defined.

Lemma offered_ride_belongs_to_path_user_witness :
  let authorization := Some "Bearer tok-ann" in
  let s' := (run (post_offerride sample_verify sample_drivers authorization
                    "driver-1" "Boston" "Albany" 20250312 900 2 "7a1f03d4-2")
                 sample).1 in
  (authenticateToken sample_verify authorization
   = inr (User.mk "ann" "ann@example.com" "passenger")
   ∧ "driver-1" ∈ sample_drivers
   ∧ "ann" ≠ "driver-1"
   ∧ "ann" ∉ sample_drivers)
  ∧ rides s' !! "7a1f03d4-2"
    = Some (Ride.mk "driver-1" "Boston" "Albany" 20250312 900 2 Ride.open)
  ∧ run (post_cancel_ride sample_verify authorization "7a1f03d4-2") s'
    = (s', Forbidden)
  ∧ run (post_offerride sample_verify sample_drivers authorization "ann"
                        "Boston" "Albany" 20250312 900 2 "7a1f03d4-2") sample
    = (sample, mkResponse 500 (error no_referenced_row)).
Proof.
  intros authorization s'.
  assert (authenticateToken sample_verify authorization
          = inr (User.mk "ann" "ann@example.com" "passenger")) as Hauth
    by (vm_compute; reflexivity).
  assert ("driver-1" ∈ sample_drivers) as Hdriver
    by (apply (bool_decide_unpack _); vm_compute; exact I).
  assert ("ann" ∉ sample_drivers) as Hnot
    by (apply (bool_decide_unpack _); vm_compute; exact I).
  split; [done|].
  destruct (offered_ride_belongs_to_path_user sample_verify sample_drivers
              authorization _ "driver-1" "Boston" "Albany" 20250312 900 2
              "7a1f03d4-2" sample Hauth) as [Hoffered _].
  destruct (Hoffered Hdriver) as (Hr & _ & Hother).
  destruct (offered_ride_belongs_to_path_user sample_verify sample_drivers
              authorization _ "ann" "Boston" "Albany" 20250312 900 2
              "7a1f03d4-2" sample Hauth) as [_ Hrefused].
  split; [exact Hr|]. split; [by apply Hother|exact (Hrefused Hnot)].
Defined.

(** ** Bookings and the sweeper *)

(** X28. [book_ride] does not look at the date and time of the ride: a
    ride whose time has passed but that no run of the sweeper has completed
    yet is booked like any other; the next run of the sweeper completes the
    ride and leaves the booking pending. *)
Theorem overdue_ride_still_bookable now s rideId userId seats uuid r :
  rides s !! rideId = Some r →
  rideId ≠ "" → seats ≠ 0 →
  ¬ terminal (Ride.status r) →
  seats ≤ Ride.seats_available r →
  ¬ holds_confirmed s userId rideId →
  past now r →
  let s' := (run (book_ride rideId userId seats uuid) s).1 in
  (run (book_ride rideId userId seats uuid) s).2 = Booked
  ∧ ledger (sweeper now s') rideId
    = Some (Ride.seats_available r - seats, Ride.completed)
  ∧ Booking.mk uuid userId rideId seats Booking.pending
    ∈ bookings (sweeper now s').
Proof.
  intros Hr Hid Hseats Hterm Hcap Hconf Hpast. rewrite run_book_ride, Hr.
  rewrite decide_False by (by intros [?|?]).
  rewrite decide_False by done. rewrite decide_False by lia.
  rewrite decide_True by by apply no_confirmed_filter.
  simpl. split_and!; [done| |].
  - unfold ledger, sweeper, booked; simpl.
    rewrite lookup_fmap, lookup_insert_eq; simpl.
    unfold mark_completed. rewrite due_spec, bool_decide_eq_true_2; [done|].
    split; [done|]. simpl.
    destruct (Ride.seats_available r - seats =? 0); [by intros [?|?]|done].
  - apply elem_of_app. right. by apply list_elem_of_singleton.
Qed.

Lemma overdue_ride_still_bookable_witness :
  let r := Ride.mk "driver-1" "New York" "Boston" 20250310 1400 3 Ride.open in
  let now : DateTime := (20250310, 1500) in
  let s' := (run (book_ride "69d206c2-1" "ann" 2 "b-1") sample).1 in
  (rides sample !! "69d206c2-1" = Some r
   ∧ ¬ terminal (Ride.status r)
   ∧ 2 ≤ Ride.seats_available r
   ∧ ¬ holds_confirmed sample "ann" "69d206c2-1"
   ∧ past now r)
  ∧ (run (book_ride "69d206c2-1" "ann" 2 "b-1") sample).2 = Booked
  ∧ ledger (sweeper now s') "69d206c2-1" = Some (3 - 2, Ride.completed)
  ∧ Booking.mk "b-1" "ann" "69d206c2-1" 2 Booking.pending
    ∈ bookings (sweeper now s').
Proof.
  intros r now s'.
  assert (rides sample !! "69d206c2-1" = Some r) as Hr
    by (vm_compute; reflexivity).
  assert (¬ terminal (Ride.status r)) as Hterm by (by intros [?|?]).
  assert (¬ holds_confirmed sample "ann" "69d206c2-1") as Hconf
    by (apply (bool_decide_unpack _); vm_compute; exact I).
  assert (past now r) as Hpast by (right; simpl; lia).
  split; [split_and!; done || (simpl; lia)|].
  apply (overdue_ride_still_bookable now sample "69d206c2-1" "ann" 2 "b-1" r
           Hr); [done|lia|done|simpl; lia|done|done].
Defined.
